(** * Correlated synthetic metrics generator and node-health simulator
    (src/src/utils/scales.ts), shallow embedding.

    JavaScript numbers are modelled as exact rationals [Q]; [Math.random()]
    is an explicit random source [Rng]: an infinite stream of draws and a
    read position, advanced by one on every call.  Functions that read
    [Math.random()] take the source and return the advanced one. *)

From Stdlib Require Import QArith Qround Qabs Lqa ZArith Lia List String Ascii Sorted.
Import ListNotations.
Open Scope Q_scope.

Arguments Qplus : simpl never.
Arguments Qmult : simpl never.
Arguments Qminus : simpl never.
Arguments Qopp : simpl never.
Arguments Qdiv : simpl never.
Arguments Qinv : simpl never.
Arguments Qabs : simpl never.
Arguments Qle_bool : simpl never.
Arguments Qeq_bool : simpl never.
Arguments Qfloor : simpl never.
Arguments inject_Z : simpl never.
Arguments Qle : simpl never.
Arguments Qlt : simpl never.
Arguments Qeq : simpl never.

(** ** JavaScript numeric builtins *)

Definition Math_max (a b : Q) : Q := if Qle_bool a b then b else a.
Definition Math_min (a b : Q) : Q := if Qle_bool a b then a else b.
Definition Math_abs (x : Q) : Q := Qabs x.
(** [Math.round x] is [floor (x + 0.5)]. *)
Definition Math_round (x : Q) : Q := inject_Z (Qfloor (x + 0.5)).
(** [a < b] *)
Definition Qltb (a b : Q) : bool := negb (Qle_bool b a).

Arguments Math_max : simpl never.
Arguments Math_min : simpl never.
Arguments Math_round : simpl never.

(** ** The random source *)

Record Rng := { draws : nat -> Q; pos : nat }.

Definition Math_random (g : Rng) : Q * Rng :=
  (draws g (pos g), {| draws := draws g; pos := S (pos g) |}).

(** [Math.random()] returns a value in [0,1). *)
Definition valid_draws (g : Rng) : Prop := forall n, 0 <= draws g n /\ draws g n < 1.

(** ** [MetricsGenerator] *)

Record MetricDataPoint := {
  timestamp : Q; cpu : Q; memory : Q; rps : Q;
  p50 : Q; p95 : Q; p99 : Q; errorRate : Q }.

Record MetricsGenerator := {
  baselineCpu : Q; baselineMemory : Q;
  cpuTrend : Q; memoryTrend : Q; errorSpikeCooldown : Q }.

(** The field initialisers of the class. *)
Definition new_MetricsGenerator : MetricsGenerator :=
  {| baselineCpu := 45; baselineMemory := 60;
     cpuTrend := 0; memoryTrend := 0; errorSpikeCooldown := 0 |}.

(** [const p50 = ...; const p95 = ...; const p99 = ...] of
    [generateDataPoint], given the load factor and the three draws. *)
Definition latencyPercentiles (loadFactor r50 r95 r99 : Q) : Q * Q * Q :=
  let baseLatency := 45 in
  let loadPenalty := loadFactor * 80 in
  let p50 := Math_max 5 (baseLatency + loadPenalty + (r50 - 0.5) * 15) in
  let p95 := p50 * (2.2 + r95 * 0.4) in
  let p99 := p95 * (1.8 + r99 * 0.3) in
  (p50, p95, p99).

Definition generateDataPoint (this : MetricsGenerator) (ts : Q) (rng : Rng)
  : MetricDataPoint * MetricsGenerator * Rng :=
  let '(r, rng) := Math_random rng in
  let cpuTrend0 := cpuTrend this + (r - 0.5) * 2 in
  let '(r, rng) := Math_random rng in
  let memoryTrend0 := memoryTrend this + (r - 0.5) * 1.5 in
  let cpuTrend1 := Math_max (-15) (Math_min 15 cpuTrend0) in
  let memoryTrend1 := Math_max (-10) (Math_min 10 memoryTrend0) in
  let '(r, rng) := Math_random rng in
  let cpu := Math_max 0 (Math_min 100 (baselineCpu this + cpuTrend1 + (r - 0.5) * 8)) in
  let '(r, rng) := Math_random rng in
  let memory := Math_max 0 (Math_min 100 (baselineMemory this + memoryTrend1 + (r - 0.5) * 6)) in
  let loadFactor := cpu / 100 in
  let baseRps := 1200 in
  let '(r, rng) := Math_random rng in
  let rps := Math_max 0 (baseRps * (0.5 + loadFactor * 0.8) + (r - 0.5) * 200) in
  let '(r50, rng) := Math_random rng in
  let '(r95, rng) := Math_random rng in
  let '(r99, rng) := Math_random rng in
  let '(p50, p95, p99) := latencyPercentiles loadFactor r50 r95 r99 in
  let '(r, rng) := Math_random rng in
  let errorRate := 0.05 + loadFactor * 0.15 + r * 0.1 in
  (* if (this.errorSpikeCooldown > 0) this.errorSpikeCooldown-- *)
  let cooldown := if Qltb 0 (errorSpikeCooldown this)
                  then errorSpikeCooldown this - 1 else errorSpikeCooldown this in
  (* this.errorSpikeCooldown === 0 && Math.random() < 0.02 *)
  let '(spike, rng) :=
    if Qeq_bool cooldown 0
    then let '(r, rng) := Math_random rng in (Qltb r 0.02, rng)
    else (false, rng) in
  let '(errorRate, cooldown, rng) :=
    if spike then
      let '(r, rng) := Math_random rng in (2 + r * 3, 15, rng)
    else if Qltb 0 cooldown && Qltb cooldown 5 then
      let '(r, rng) := Math_random rng in (0.5 + r * 1, cooldown, rng)
    else (errorRate, cooldown, rng) in
  ({| timestamp := ts; cpu := cpu; memory := memory;
      rps := Math_round rps;
      p50 := Math_round (p50 * 10) / 10;
      p95 := Math_round (p95 * 10) / 10;
      p99 := Math_round (p99 * 10) / 10;
      errorRate := Math_round (errorRate * 100) / 100 |},
   {| baselineCpu := baselineCpu this; baselineMemory := baselineMemory this;
      cpuTrend := cpuTrend1; memoryTrend := memoryTrend1;
      errorSpikeCooldown := cooldown |},
   rng).

Definition half_rng : Rng := {| draws := fun _ => 1#2; pos := 0 |}.

Example generateDataPoint_half :
  let '(p, g, r) := generateDataPoint new_MetricsGenerator 0 half_rng in
  forallb (fun '(a, b) => Qeq_bool a b)
    [(cpu p, 45); (rps p, 1032); (p50 p, 81); (p95 p, 194.4); (p99 p, 379.1);
     (errorRate p, 0.17); (errorSpikeCooldown g, 0)] = true /\ pos r = 10%nat.
Proof. vm_compute. split; reflexivity. Qed.

(** ** Facts about the numeric builtins *)

Lemma Qltb_true a b : Qltb a b = true <-> a < b.
Proof.
  unfold Qltb. rewrite Bool.negb_true_iff.
  split; intro H.
  - apply Qnot_le_lt. intro H'. apply Qle_bool_iff in H'. congruence.
  - destruct (Qle_bool b a) eqn:E; [|reflexivity].
    apply Qle_bool_iff in E. exfalso. apply (Qlt_not_le a b); assumption.
Qed.

Lemma Qltb_false a b : Qltb a b = false <-> b <= a.
Proof.
  unfold Qltb. rewrite Bool.negb_false_iff. apply Qle_bool_iff.
Qed.

Lemma Qle_bool_false a b : Qle_bool a b = false <-> b < a.
Proof.
  split; intro H.
  - apply Qnot_le_lt. intro H'. apply Qle_bool_iff in H'. congruence.
  - destruct (Qle_bool a b) eqn:E; [|reflexivity].
    apply Qle_bool_iff in E. lra.
Qed.

(** Replace every boolean comparison in the context by its meaning. *)
Ltac qbool :=
  repeat match goal with
  | H : Qle_bool _ _ = true |- _ => apply Qle_bool_iff in H
  | H : Qle_bool _ _ = false |- _ => apply Qle_bool_false in H
  | H : Qltb _ _ = true |- _ => apply Qltb_true in H
  | H : Qltb _ _ = false |- _ => apply Qltb_false in H
  | H : Qeq_bool _ _ = true |- _ => apply Qeq_bool_iff in H
  | H : Qeq_bool _ _ = false |- _ => apply Qeq_bool_neq in H
  | H : (_ && _)%bool = true |- _ => apply andb_prop in H; destruct H
  | H : (_ && _)%bool = false |- _ => apply Bool.andb_false_iff in H; destruct H
  end.

Lemma Math_max_ge_l a b : a <= Math_max a b.
Proof. unfold Math_max. destruct (Qle_bool a b) eqn:E; qbool; lra. Qed.

Lemma Math_max_ge_r a b : b <= Math_max a b.
Proof. unfold Math_max. destruct (Qle_bool a b) eqn:E; qbool; lra. Qed.

Lemma Math_max_lub a b c : a <= c -> b <= c -> Math_max a b <= c.
Proof. unfold Math_max. destruct (Qle_bool a b) eqn:E; qbool; lra. Qed.

Lemma Math_max_r a b : a <= b -> Math_max a b == b.
Proof. unfold Math_max. destruct (Qle_bool a b) eqn:E; qbool; lra. Qed.

Lemma Math_max_r_eq a b : a <= b -> Math_max a b = b.
Proof. intro H. unfold Math_max. apply Qle_bool_iff in H. rewrite H. reflexivity. Qed.

Lemma Math_min_le_l a b : Math_min a b <= a.
Proof. unfold Math_min. destruct (Qle_bool a b) eqn:E; qbool; lra. Qed.

Lemma Math_min_le_r a b : Math_min a b <= b.
Proof. unfold Math_min. destruct (Qle_bool a b) eqn:E; qbool; lra. Qed.

Lemma Math_min_glb a b c : c <= a -> c <= b -> c <= Math_min a b.
Proof. unfold Math_min. destruct (Qle_bool a b) eqn:E; qbool; lra. Qed.

(** [Math.max(lo, Math.min(hi, x))] lies in [lo, hi]. *)
Lemma clamp_bounds lo hi x :
  lo <= hi -> lo <= Math_max lo (Math_min hi x) /\ Math_max lo (Math_min hi x) <= hi.
Proof.
  intro H. split.
  - apply Math_max_ge_l.
  - apply Math_max_lub; [exact H | apply Math_min_le_l].
Qed.

Lemma Math_round_mono x y : x <= y -> Math_round x <= Math_round y.
Proof.
  intro H. unfold Math_round. rewrite <- Zle_Qle.
  apply Qfloor_resp_le. lra.
Qed.

Lemma Math_round_int z : Math_round (inject_Z z) == inject_Z z.
Proof.
  unfold Math_round.
  assert (Hl := Qfloor_le (inject_Z z + 0.5)).
  assert (Hu := Qlt_floor (inject_Z z + 0.5)).
  set (f := Qfloor (inject_Z z + 0.5)) in *.
  rewrite inject_Z_plus in Hu. change (inject_Z 1) with 1 in Hu.
  assert (f <= z)%Z.
  { assert (inject_Z f < inject_Z (z + 1)) as H'.
    { rewrite inject_Z_plus. change (inject_Z 1) with 1. lra. }
    rewrite <- Zlt_Qlt in H'. lia. }
  assert (z <= f)%Z.
  { assert (inject_Z z < inject_Z (f + 1)) as H'.
    { rewrite inject_Z_plus. change (inject_Z 1) with 1. lra. }
    rewrite <- Zlt_Qlt in H'. lia. }
  assert (f = z) as -> by lia. apply Qeq_refl.
Qed.

Lemma Math_round_ge z x : inject_Z z <= x -> inject_Z z <= Math_round x.
Proof.
  intro H. rewrite <- (Math_round_int z) at 1. apply Math_round_mono, H.
Qed.

Lemma Math_round_le z x : x <= inject_Z z -> Math_round x <= inject_Z z.
Proof.
  intro H. rewrite <- (Math_round_int z). apply Math_round_mono, H.
Qed.

(** Division by a literal, as [lra] reads it. *)
Ltac qdiv := cbv [Qdiv Qinv Qnum Qden] in *.

Lemma latencyPercentiles_order lf r50 r95 r99 :
  0 <= r95 -> 0 <= r99 ->
  let '(a, b, c) := latencyPercentiles lf r50 r95 r99 in 5 <= a /\ a < b /\ b < c.
Proof.
  intros H95 H99. unfold latencyPercentiles. cbn.
  assert (H5 := Math_max_ge_l 5 (45 + lf * 80 + (r50 - 0.5) * 15)).
  set (a := Math_max 5 _) in *.
  assert (Hb : a < a * (2.2 + r95 * 0.4)) by nra.
  set (b := a * (2.2 + r95 * 0.4)) in *.
  repeat split; [exact H5 | exact Hb | nra].
Qed.

Arguments latencyPercentiles : simpl never.

(** Bounds on the draws read so far. *)
Ltac draw_bounds Hv :=
  repeat match goal with
  | |- context [draws ?g ?n] =>
      lazymatch goal with
      | _ : 0 <= draws g n /\ _ |- _ => fail
      | _ => pose proof (Hv n)
      end
  end.

(** Name each clamped value, recording its bounds. *)
Ltac clamps :=
  repeat match goal with
  | |- context [Math_max ?lo (Math_min ?hi ?x)] =>
      let H := fresh "Hclamp" in
      assert (H := clamp_bounds lo hi x ltac:(lra));
      set (Math_max lo (Math_min hi x)) in *
  end.

(** Case split on every pending [if], innermost first. *)
Ltac split_ifs :=
  repeat match goal with
  | |- context [if ?b then _ else _] =>
      lazymatch b with context [if _ then _ else _] => fail | _ => idtac end;
      let E := fresh "E" in
      destruct b eqn:E; try rewrite E in *; cbn
  | H : context [if ?b then _ else _] |- _ =>
      lazymatch b with context [if _ then _ else _] => fail | _ => idtac end;
      let E := fresh "E" in
      destruct b eqn:E; try rewrite E in *; cbn in H
  end; qbool.

Lemma round_div_mono x y k : 0 < k -> x <= y -> Math_round x / k <= Math_round y / k.
Proof.
  intros Hk Hxy. unfold Qdiv. apply Qmult_le_compat_r.
  - apply Math_round_mono, Hxy.
  - apply Qinv_le_0_compat. lra.
Qed.

Lemma round_div_ge z x k :
  0 < k -> inject_Z z <= x -> inject_Z z / k <= Math_round x / k.
Proof.
  intros Hk Hx. rewrite <- (Math_round_int z) at 1.
  apply round_div_mono; assumption.
Qed.

Lemma round_div_le z x k :
  0 < k -> x <= inject_Z z -> Math_round x / k <= inject_Z z / k.
Proof.
  intros Hk Hx. rewrite <- (Math_round_int z).
  apply round_div_mono; assumption.
Qed.

(** ** Claims about [generateDataPoint] *)

(** C1: whatever the generator state and whatever the draws of
    [Math.random()], the sample has [0 <= cpu <= 100], [0 <= memory <= 100],
    [rps >= 0], [0 < p50 <= p95 <= p99] and [errorRate >= 0]; before rounding
    the percentiles are strictly ordered, [p50 < p95 < p99]. *)
Theorem generateDataPoint_bounds (this : MetricsGenerator) (ts : Q) (rng : Rng) :
  valid_draws rng ->
  (let '(p, _, _) := generateDataPoint this ts rng in
   (0 <= cpu p <= 100) /\ (0 <= memory p <= 100) /\ 0 <= rps p /\
   0 < p50 p /\ p50 p <= p95 p /\ p95 p <= p99 p /\ 0 <= errorRate p) /\
  (forall loadFactor r50 r95 r99, 0 <= r95 -> 0 <= r99 ->
   let '(a, b, c) := latencyPercentiles loadFactor r50 r95 r99 in
   0 < a /\ a < b /\ b < c).
Proof.
  intro Hv. split.
  2:{ intros lf r50 r95 r99 H95 H99.
      generalize (latencyPercentiles_order lf r50 r95 r99 H95 H99).
      destruct (latencyPercentiles lf r50 r95 r99) as [[a b] c].
      intros (? & ? & ?). repeat split; lra. }
  unfold generateDataPoint. cbn.
  draw_bounds Hv.
  match goal with
  | |- context [latencyPercentiles ?lf ?x ?y ?z] =>
      generalize (latencyPercentiles_order lf x y z ltac:(lra) ltac:(lra));
      destruct (latencyPercentiles lf x y z) as [[a b] c]
  end.
  intros (Ha & Hab & Hbc).
  clamps. cbn. split_ifs.
  all: draw_bounds Hv.
  all: repeat split; try lra.
  all: try (apply (Math_round_ge 0); unfold inject_Z;
            eapply Qle_trans; [|apply Math_max_ge_l]; lra).
  all: try (apply round_div_mono; lra).
  all: try (eapply Qlt_le_trans; [|apply (round_div_ge 50)];
            unfold inject_Z; qdiv; lra).
  all: try (eapply Qle_trans; [|apply (round_div_ge 0)];
            unfold inject_Z; qdiv; lra).
Qed.

(** C10: whatever the generator state and whatever the draws, the sample's
    [rps] is at least 500, and it is the rounded unguarded throughput
    [1200 * (0.5 + cpu/100 * 0.8) + (r - 0.5) * 200]: the guard
    [Math.max(0, ...)] never takes its [0] branch. *)
Theorem generateDataPoint_rps_unguarded (this : MetricsGenerator) (ts : Q) (rng : Rng) :
  valid_draws rng ->
  let '(p, _, _) := generateDataPoint this ts rng in
  500 <= rps p /\
  rps p = Math_round (1200 * (0.5 + cpu p / 100 * 0.8) + (draws rng (4 + pos rng) - 0.5) * 200).
Proof.
  intro Hv. unfold generateDataPoint. cbn.
  draw_bounds Hv.
  destruct (latencyPercentiles _ _ _ _) as [[a b] c].
  clamps. cbn. split_ifs.
  all: match goal with
       | |- context [Math_max 0 ?x] =>
           assert (Hx : 500 <= x) by (qdiv; lra);
           rewrite (Math_max_r_eq 0 x) by lra
       end.
  all: split; [apply (Math_round_ge 500); unfold inject_Z; lra | reflexivity].
Qed.

(** [this.errorSpikeCooldown] holds an integer of [0..15]. *)
Definition cooldown_ok (c : Q) : Prop :=
  exists z : Z, c == inject_Z z /\ (0 <= z <= 15)%Z.

Definition gen_inv (g : MetricsGenerator) : Prop :=
  (-15 <= cpuTrend g <= 15) /\ (-10 <= memoryTrend g <= 10) /\
  cooldown_ok (errorSpikeCooldown g).

Lemma inject_Z_pred z : inject_Z (z - 1) == inject_Z z - 1.
Proof. unfold Z.sub. rewrite inject_Z_plus. reflexivity. Qed.

Lemma inject_Z_lt_iff a b : (a < b)%Z <-> inject_Z a < inject_Z b.
Proof. rewrite Zlt_Qlt. reflexivity. Qed.

Lemma inject_Z_le_iff a b : (a <= b)%Z <-> inject_Z a <= inject_Z b.
Proof. rewrite Zle_Qle. reflexivity. Qed.

(** One call keeps the trends in their clamps and the cooldown in [0..15]. *)
Lemma generateDataPoint_gen_inv this ts rng :
  cooldown_ok (errorSpikeCooldown this) ->
  gen_inv (snd (fst (generateDataPoint this ts rng))).
Proof.
  intros (z & Hz & Hr). unfold generateDataPoint. cbn.
  destruct (latencyPercentiles _ _ _ _) as [[a b] c].
  clamps. cbn. split_ifs.
  all: unfold gen_inv; cbn; split; [lra | split; [lra |]].
  all: first
    [ exists 15%Z; split; [reflexivity | lia]
    | assert (0 < z)%Z by (apply inject_Z_lt_iff; unfold inject_Z at 1; lra);
      exists (z - 1)%Z; split; [rewrite inject_Z_pred; lra | lia]
    | assert (z <= 0)%Z by (apply inject_Z_le_iff; unfold inject_Z at 2; lra);
      exists z; split; [lra | lia] ].
Qed.

(** Successive live calls [generateDataPoint(t)] for the timestamps [tss]. *)
Fixpoint generateMany (this : MetricsGenerator) (tss : list Q) (rng : Rng)
  : list MetricDataPoint * MetricsGenerator * Rng :=
  match tss with
  | [] => ([], this, rng)
  | t :: tss' =>
      let '(p, this', rng') := generateDataPoint this t rng in
      let '(ps, this'', rng'') := generateMany this' tss' rng' in
      (p :: ps, this'', rng'')
  end.

(** C6: from the initial state, after any number of calls and whatever the
    draws, [cpuTrend] is in [-15,15], [memoryTrend] in [-10,10] and
    [errorSpikeCooldown] is an integer of [0..15]. *)
Theorem generateMany_gen_inv (tss : list Q) (rng : Rng) :
  gen_inv (snd (fst (generateMany new_MetricsGenerator tss rng))).
Proof.
  assert (H : forall this rng, gen_inv this ->
            gen_inv (snd (fst (generateMany this tss rng)))).
  { induction tss as [|t tss IH]; intros this r Hi; cbn [generateMany].
    - exact Hi.
    - assert (Hs := generateDataPoint_gen_inv this t r (proj2 (proj2 Hi))).
      destruct (generateDataPoint this t r) as [[p this'] r'].
      specialize (IH this' r' Hs).
      destruct (generateMany this' tss r') as [[ps this''] r'']. exact IH. }
  apply H. unfold gen_inv. cbn. split; [lra | split; [lra |]].
  exists 0%Z. split; [reflexivity | lia].
Qed.

(** The trend updates of one call. *)
Lemma trend_update_step (this : MetricsGenerator) (ts : Q) (rng : Rng) :
  valid_draws rng ->
  let '(_, g, _) := generateDataPoint this ts rng in
  let dc := (draws rng (pos rng) - 0.5) * 2 in
  let dm := (draws rng (1 + pos rng) - 0.5) * 1.5 in
  (-1 <= dc < 1) /\ (-0.75 <= dm < 0.75) /\
  cpuTrend g = Math_max (-15) (Math_min 15 (cpuTrend this + dc)) /\
  memoryTrend g = Math_max (-10) (Math_min 10 (memoryTrend this + dm)).
Proof.
  intro Hv. unfold generateDataPoint. cbn.
  destruct (Hv (pos rng)), (Hv (S (pos rng))).
  destruct (latencyPercentiles _ _ _ _) as [[a b] c].
  split_ifs.
  all: split; [lra | split; [lra | split; reflexivity]].
Qed.

(** C5, as the code has it: [cpuTrend] moves by [(r - 0.5) * 2], an
    increment in [-1,1), and [memoryTrend] by [(r - 0.5) * 1.5], an increment
    in [-0.75,0.75); the results are clamped to [-15,15] and [-10,10]. *)
Theorem generateDataPoint_trend_update (this : MetricsGenerator) (ts : Q) (rng : Rng) :
  valid_draws rng ->
  let '(_, g, _) := generateDataPoint this ts rng in
  let dc := (draws rng (pos rng) - 0.5) * 2 in
  let dm := (draws rng (1 + pos rng) - 0.5) * 1.5 in
  (-1 <= dc < 1) /\ (-0.75 <= dm < 0.75) /\
  cpuTrend g = Math_max (-15) (Math_min 15 (cpuTrend this + dc)) /\
  memoryTrend g = Math_max (-10) (Math_min 10 (memoryTrend this + dm)).
Proof. apply trend_update_step. Qed.

Lemma valid_draws_half : valid_draws half_rng.
Proof. intro n. cbn. lra. Qed.

Lemma generateDataPoint_trend_update_witness :
  valid_draws half_rng /\
  (let '(_, g, _) := generateDataPoint new_MetricsGenerator 0 half_rng in
   let dc := (draws half_rng (pos half_rng) - 0.5) * 2 in
   let dm := (draws half_rng (1 + pos half_rng) - 0.5) * 1.5 in
   (-1 <= dc < 1) /\ (-0.75 <= dm < 0.75) /\
   cpuTrend g = Math_max (-15) (Math_min 15 (cpuTrend new_MetricsGenerator + dc)) /\
   memoryTrend g = Math_max (-10) (Math_min 10 (memoryTrend new_MetricsGenerator + dm))).
Proof.
  split; [apply valid_draws_half |].
  apply (generateDataPoint_trend_update new_MetricsGenerator 0 half_rng valid_draws_half).
Defined.

(** C5 as stated is refuted: starting from the initial state, no draw of
    [Math.random()] in [0,1) moves [cpuTrend] by 1.5 or [memoryTrend] by 1.2,
    although both lie in the ranges [-2,2] and [-1.5,1.5] the claim gives. *)
Lemma trend_increment_range_counterexample :
  ~ (exists rng : Rng, valid_draws rng /\
       let '(_, g, _) := generateDataPoint new_MetricsGenerator 0 rng in
       cpuTrend g == 1.5) /\
  ~ (exists rng : Rng, valid_draws rng /\
       let '(_, g, _) := generateDataPoint new_MetricsGenerator 0 rng in
       memoryTrend g == 1.2).
Proof.
  split; intros (rng & Hv & H);
    generalize (trend_update_step new_MetricsGenerator 0 rng Hv);
    destruct (generateDataPoint new_MetricsGenerator 0 rng) as [[p g] r];
    cbn zeta; intros (Hc & Hm & Ec & Em).
  - rewrite Ec in H. cbn [cpuTrend new_MetricsGenerator] in H.
    rewrite Math_max_r_eq in H.
    + unfold Math_min in H. destruct (Qle_bool _ _) eqn:E; qbool; lra.
    + apply Math_min_glb; lra.
  - rewrite Em in H. cbn [memoryTrend new_MetricsGenerator] in H.
    rewrite Math_max_r_eq in H.
    + unfold Math_min in H. destruct (Qle_bool _ _) eqn:E; qbool; lra.
    + apply Math_min_glb; lra.
Qed.

(** ** The error-spike state machine *)

(** One live call of [generateDataPoint] on the generator and the random
    source; the timestamp is copied into the sample and plays no other
    part. *)
Definition liveTick (s : MetricsGenerator * Rng) : MetricDataPoint * (MetricsGenerator * Rng) :=
  let '(p, g, r) := generateDataPoint (fst s) 0 (snd s) in (p, (g, r)).

(** The generator and the random source after [n] live calls. *)
Fixpoint ticks (n : nat) (s : MetricsGenerator * Rng) : MetricsGenerator * Rng :=
  match n with
  | O => s
  | S n' => ticks n' (snd (liveTick s))
  end.

(** The sample of call number [n] (counted from 0). *)
Definition sample_at (n : nat) (s : MetricsGenerator * Rng) : MetricDataPoint :=
  fst (liveTick (ticks n s)).

Lemma ticks_S n s : ticks (S n) s = snd (liveTick (ticks n s)).
Proof.
  revert s. induction n as [|n IH]; intro s.
  - reflexivity.
  - change (ticks (S (S n)) s) with (ticks (S n) (snd (liveTick s))).
    rewrite IH. reflexivity.
Qed.

Lemma generateDataPoint_draws this ts rng :
  draws (snd (generateDataPoint this ts rng)) = draws rng.
Proof.
  unfold generateDataPoint. cbn.
  destruct (latencyPercentiles _ _ _ _) as [[a b] c].
  split_ifs; reflexivity.
Qed.

Lemma ticks_valid n s : valid_draws (snd s) -> valid_draws (snd (ticks n s)).
Proof.
  revert s. induction n as [|n IH]; intros s Hv; [exact Hv|].
  cbn [ticks]. apply IH. unfold liveTick.
  generalize (generateDataPoint_draws (fst s) 0 (snd s)).
  destruct (generateDataPoint (fst s) 0 (snd s)) as [[p g] r].
  cbn. intros Hd. unfold valid_draws in *. rewrite Hd. exact Hv.
Qed.

(** Cooldown above 5 after the decrement: the base error rate stands. *)
Lemma tick_cooling this ts rng :
  6 <= errorSpikeCooldown this ->
  let '(p, g, _) := generateDataPoint this ts rng in
  errorSpikeCooldown g == errorSpikeCooldown this - 1 /\
  errorRate p = Math_round ((0.05 + cpu p / 100 * 0.15 + draws rng (8 + pos rng) * 0.1) * 100) / 100.
Proof.
  intro Hc. unfold generateDataPoint. cbn.
  destruct (latencyPercentiles _ _ _ _) as [[a b] c].
  split_ifs; try lra.
  split; [lra | reflexivity].
Qed.

(** Cooldown in [1..4] after the decrement: the recovery plateau. *)
Lemma tick_plateau this ts rng :
  valid_draws rng ->
  2 <= errorSpikeCooldown this <= 5 ->
  let '(p, g, _) := generateDataPoint this ts rng in
  errorSpikeCooldown g == errorSpikeCooldown this - 1 /\
  0.5 <= errorRate p <= 1.5.
Proof.
  intros Hv Hc. unfold generateDataPoint. cbn.
  destruct (latencyPercentiles _ _ _ _) as [[a b] c].
  split_ifs; try lra.
  draw_bounds Hv.
  split; [lra | split].
  - eapply Qle_trans; [|apply (round_div_ge 50)]; unfold inject_Z; qdiv; lra.
  - eapply Qle_trans; [apply (round_div_le 150)|]; unfold inject_Z; qdiv; lra.
Qed.

(** Cooldown 0 after the decrement and a successful roll: a spike. *)
Lemma tick_spike this ts rng :
  valid_draws rng ->
  (errorSpikeCooldown this == 0 \/ errorSpikeCooldown this == 1) ->
  draws rng (9 + pos rng) < 0.02 ->
  let '(p, g, _) := generateDataPoint this ts rng in
  errorSpikeCooldown g == 15 /\ 2 <= errorRate p <= 5.
Proof.
  intros Hv Hc Hroll. unfold generateDataPoint. cbn. cbn in Hroll.
  destruct (latencyPercentiles _ _ _ _) as [[a b] c].
  split_ifs; try lra.
  all: try (rewrite <- Qltb_true in Hroll; congruence).
  all: draw_bounds Hv.
  all: split; [reflexivity | split].
  all: first
    [ eapply Qle_trans; [|apply (round_div_ge 200)]; unfold inject_Z; qdiv; lra
    | eapply Qle_trans; [apply (round_div_le 500)|]; unfold inject_Z; qdiv; lra ].
Qed.

(** While the cooldown is at least 2 a call only decrements it. *)
Lemma generateDataPoint_cooldown_dec this ts rng :
  2 <= errorSpikeCooldown this ->
  errorSpikeCooldown (snd (fst (generateDataPoint this ts rng))) == errorSpikeCooldown this - 1.
Proof.
  intro Hc. unfold generateDataPoint. cbn.
  destruct (latencyPercentiles _ _ _ _) as [[a b] c].
  split_ifs; lra.
Qed.

Lemma inject_Z_of_nat_S j : inject_Z (Z.of_nat (S j)) == inject_Z (Z.of_nat j) + 1.
Proof. rewrite Nat2Z.inj_succ, <- Z.add_1_r, inject_Z_plus. reflexivity. Qed.

Lemma inject_Z_of_nat_bounds j lo hi :
  (lo <= j <= hi)%nat -> inject_Z (Z.of_nat lo) <= inject_Z (Z.of_nat j) <= inject_Z (Z.of_nat hi).
Proof. intro H. rewrite <- !Zle_Qle. lia. Qed.

Lemma liveTick_cooldown s :
  2 <= errorSpikeCooldown (fst s) ->
  errorSpikeCooldown (fst (snd (liveTick s))) == errorSpikeCooldown (fst s) - 1.
Proof.
  intro Hc. unfold liveTick.
  generalize (generateDataPoint_cooldown_dec (fst s) 0 (snd s) Hc).
  destruct (generateDataPoint (fst s) 0 (snd s)) as [[p g] r]. cbn. auto.
Qed.

(** After a spike the cooldown counts down 14, 13, ..., 1. *)
Lemma cooldown_countdown s :
  errorSpikeCooldown (fst (ticks 1 s)) == 15 ->
  forall j, (j <= 14)%nat ->
  errorSpikeCooldown (fst (ticks (S j) s)) == 15 - inject_Z (Z.of_nat j).
Proof.
  intros H1 j. induction j as [|j IH]; intro Hj.
  - rewrite H1. reflexivity.
  - rewrite ticks_S. rewrite liveTick_cooldown.
    + rewrite IH by lia. rewrite inject_Z_of_nat_S. lra.
    + rewrite IH by lia.
      assert (Hb := inject_Z_of_nat_bounds j 0 13 ltac:(lia)).
      change (inject_Z (Z.of_nat 0)) with 0 in Hb.
      change (inject_Z (Z.of_nat 13)) with 13 in Hb. lra.
Qed.

Lemma liveTick_spike s :
  valid_draws (snd s) ->
  (errorSpikeCooldown (fst s) == 0 \/ errorSpikeCooldown (fst s) == 1) ->
  draws (snd s) (9 + pos (snd s)) < 0.02 ->
  errorSpikeCooldown (fst (snd (liveTick s))) == 15 /\ 2 <= errorRate (fst (liveTick s)) <= 5.
Proof.
  intros Hv Hc Hr. unfold liveTick.
  generalize (tick_spike (fst s) 0 (snd s) Hv Hc Hr).
  destruct (generateDataPoint (fst s) 0 (snd s)) as [[p g] r]. cbn. auto.
Qed.

(** C4: a spike fired on call 0 (cooldown 0 after the decrement and the
    0.02 roll succeeds) gives an error rate in [2,5] and cooldown 15; calls
    1..10 leave cooldown 14..5 and report the base error rate
    [0.05 + loadFactor*0.15 + r*0.1] (rounded to 2 decimals); calls 11..14
    leave cooldown 4..1 and report an error rate in [0.5,1.5]; call 15
    brings the cooldown to 0 and its idle roll can fire a new spike; and no
    call on a cooldown of at least 2 fires a spike. *)
Theorem spike_state_machine (this : MetricsGenerator) (rng : Rng) :
  valid_draws rng ->
  (errorSpikeCooldown this == 0 \/ errorSpikeCooldown this == 1) ->
  draws rng (9 + pos rng) < 0.02 ->
  let s := (this, rng) in
  (2 <= errorRate (sample_at 0 s) <= 5 /\ errorSpikeCooldown (fst (ticks 1 s)) == 15) /\
  (forall j, (1 <= j <= 10)%nat ->
     let r := snd (ticks j s) in
     let p := sample_at j s in
     errorSpikeCooldown (fst (ticks (S j) s)) == 15 - inject_Z (Z.of_nat j) /\
     errorRate p = Math_round ((0.05 + cpu p / 100 * 0.15 + draws r (8 + pos r) * 0.1) * 100) / 100) /\
  (forall j, (11 <= j <= 14)%nat ->
     errorSpikeCooldown (fst (ticks (S j) s)) == 15 - inject_Z (Z.of_nat j) /\
     0.5 <= errorRate (sample_at j s) <= 1.5) /\
  (let r := snd (ticks 15 s) in
   draws r (9 + pos r) < 0.02 ->
   2 <= errorRate (sample_at 15 s) <= 5 /\ errorSpikeCooldown (fst (ticks 16 s)) == 15) /\
  (forall g r ts, 2 <= errorSpikeCooldown g ->
     errorSpikeCooldown (snd (fst (generateDataPoint g ts r))) == errorSpikeCooldown g - 1).
Proof.
  intros Hv Hc Hr s.
  destruct (liveTick_spike s Hv Hc Hr) as [H15 Hrate].
  assert (Hcd := cooldown_countdown s H15).
  (* the cooldown before call j, for 1 <= j <= 15 *)
  assert (Hbefore : forall j, (1 <= j <= 15)%nat ->
            errorSpikeCooldown (fst (ticks j s)) == 16 - inject_Z (Z.of_nat j)).
  { intros [|j] Hj; [lia|]. rewrite (Hcd j) by lia. rewrite inject_Z_of_nat_S. lra. }
  split; [split; [exact Hrate | exact H15] |].
  split; [| split; [| split]].
  - intros j Hj. split; [apply Hcd; lia |].
    assert (Hb := inject_Z_of_nat_bounds j 1 10 Hj).
    change (inject_Z (Z.of_nat 1)) with 1 in Hb.
    change (inject_Z (Z.of_nat 10)) with 10 in Hb.
    assert (Hj6 : 6 <= errorSpikeCooldown (fst (ticks j s))) by (rewrite Hbefore by lia; lra).
    unfold sample_at, liveTick.
    destruct (ticks j s) as [g r]. cbn [fst snd] in *.
    generalize (tick_cooling g 0 r Hj6).
    destruct (generateDataPoint g 0 r) as [[p g'] r']. cbn.
    intros [_ He]. exact He.
  - intros j Hj. split; [apply Hcd; lia |].
    assert (Hb := inject_Z_of_nat_bounds j 11 14 Hj).
    change (inject_Z (Z.of_nat 11)) with 11 in Hb.
    change (inject_Z (Z.of_nat 14)) with 14 in Hb.
    assert (Hj25 : 2 <= errorSpikeCooldown (fst (ticks j s)) <= 5)
      by (rewrite Hbefore by lia; lra).
    assert (Hvj := ticks_valid j s Hv).
    unfold sample_at, liveTick.
    destruct (ticks j s) as [g r]. cbn [fst snd] in *.
    generalize (tick_plateau g 0 r Hvj Hj25).
    destruct (generateDataPoint g 0 r) as [[p g'] r']. cbn.
    intros [_ He]. exact He.
  - intros r Hr15.
    assert (H1 : errorSpikeCooldown (fst (ticks 15 s)) == 1)
      by (rewrite Hbefore by lia; reflexivity).
    destruct (liveTick_spike (ticks 15 s) (ticks_valid 15 s Hv) (or_intror H1) Hr15)
      as [Hc16 Hr16].
    split; [exact Hr16 |]. rewrite ticks_S. exact Hc16.
  - intros g r ts. apply generateDataPoint_cooldown_dec.
Qed.

(** ** Backfill: [generateHistoricalData] *)

(** [for (let i = start; i < points; i++)] with [k] iterations left;
    [now] is the value of [Date.now()]. *)
Fixpoint historical_loop (this : MetricsGenerator) (now intervalMs points : Q)
    (i k : nat) (rng : Rng) : list MetricDataPoint * MetricsGenerator * Rng :=
  match k with
  | O => ([], this, rng)
  | S k' =>
      let ts := now - (points - inject_Z (Z.of_nat i)) * intervalMs in
      let '(p, this', rng') := generateDataPoint this ts rng in
      let '(data, this'', rng'') := historical_loop this' now intervalMs points (S i) k' rng' in
      (p :: data, this'', rng'')
  end.

Definition generateHistoricalData (this : MetricsGenerator) (now minutes intervalMs : Q)
    (rng : Rng) : list MetricDataPoint * MetricsGenerator * Rng :=
  let points := Qfloor (minutes * 60 * 1000 / intervalMs) in
  historical_loop this now intervalMs (inject_Z points) 0 (Z.to_nat points) rng.

Example generateHistoricalData_5min :
  let '(data, _, _) := generateHistoricalData new_MetricsGenerator 1000000 5 2000 half_rng in
  List.length data = 150%nat.
Proof. vm_compute. reflexivity. Qed.

Example generateHistoricalData_negative :
  let '(data, _, _) := generateHistoricalData new_MetricsGenerator 1000000 (-5) 2000 half_rng in
  data = [].
Proof. vm_compute. reflexivity. Qed.

Lemma generateDataPoint_timestamp this ts rng :
  timestamp (fst (fst (generateDataPoint this ts rng))) = ts.
Proof.
  unfold generateDataPoint. cbn.
  destruct (latencyPercentiles _ _ _ _) as [[a b] c].
  split_ifs; reflexivity.
Qed.

Lemma historical_loop_timestamps this now I P i k rng :
  let '(data, _, _) := historical_loop this now I P i k rng in
  map timestamp data = map (fun j => now - (P - inject_Z (Z.of_nat j)) * I) (seq i k).
Proof.
  revert this i rng. induction k as [|k IH]; intros this i rng; [reflexivity|].
  cbn [historical_loop].
  generalize (generateDataPoint_timestamp this (now - (P - inject_Z (Z.of_nat i)) * I) rng).
  destruct (generateDataPoint this _ rng) as [[p this'] rng'].
  specialize (IH this' (S i) rng').
  destruct (historical_loop this' now I P (S i) k rng') as [[data this''] rng''].
  cbn. intros ->. rewrite IH. reflexivity.
Qed.

Lemma seq_timestamps_sorted now I P i k :
  0 < I -> Sorted Qlt (map (fun j => now - (P - inject_Z (Z.of_nat j)) * I) (seq i k)).
Proof.
  intro HI. revert i. induction k as [|k IH]; intro i; cbn [seq map]; [constructor|].
  constructor; [apply IH|].
  destruct k; cbn [seq map]; constructor.
  rewrite inject_Z_of_nat_S. nra.
Qed.

Lemma Qfloor_nonpos x : x <= 0 -> (Qfloor x <= 0)%Z.
Proof. intro H. apply (Qfloor_resp_le x 0) in H. exact H. Qed.

Lemma Qfloor_nonneg x : 0 <= x -> (0 <= Qfloor x)%Z.
Proof. intro H. apply (Qfloor_resp_le 0 x) in H. exact H. Qed.

(** C3: with [intervalMs > 0], backfill returns [max 0 (floor
    (minutes*60*1000/intervalMs))] samples: exactly that floor when
    [minutes >= 0], none when [minutes <= 0] (so [minutes = 0] and
    [minutes = -5] give the empty sequence); the timestamps are strictly
    increasing. *)
Theorem generateHistoricalData_shape (this : MetricsGenerator) (now minutes intervalMs : Q)
    (rng : Rng) :
  0 < intervalMs ->
  let '(data, _, _) := generateHistoricalData this now minutes intervalMs rng in
  Z.of_nat (List.length data) = Z.max 0 (Qfloor (minutes * 60 * 1000 / intervalMs)) /\
  (0 <= minutes -> Z.of_nat (List.length data) = Qfloor (minutes * 60 * 1000 / intervalMs)) /\
  (minutes <= 0 -> data = []) /\
  Sorted Qlt (map timestamp data).
Proof.
  intro HI. unfold generateHistoricalData.
  set (P := Qfloor (minutes * 60 * 1000 / intervalMs)).
  assert (Hinv : 0 < / intervalMs) by (apply Qinv_lt_0_compat; exact HI).
  assert (Hlen : forall this i k rng,
            List.length (fst (fst (historical_loop this now intervalMs (inject_Z P) i k rng))) = k).
  { intros t i k. revert t i. induction k as [|k IH]; intros t i r; [reflexivity|].
    cbn [historical_loop].
    destruct (generateDataPoint t _ r) as [[p t'] r'].
    specialize (IH t' (S i) r').
    destruct (historical_loop t' now intervalMs (inject_Z P) (S i) k r') as [[d t''] r''].
    cbn in *. rewrite IH. reflexivity. }
  generalize (Hlen this 0%nat (Z.to_nat P) rng).
  generalize (historical_loop_timestamps this now intervalMs (inject_Z P) 0 (Z.to_nat P) rng).
  destruct (historical_loop this now intervalMs (inject_Z P) 0 (Z.to_nat P) rng)
    as [[data g] r].
  cbn [fst]. intros Hts Hl.
  split; [rewrite Hl; lia |].
  split; [| split].
  - intro Hm. rewrite Hl.
    assert (0 <= P)%Z.
    { apply Qfloor_nonneg. unfold Qdiv. nra. }
    lia.
  - intro Hm.
    assert (P <= 0)%Z.
    { apply Qfloor_nonpos. unfold Qdiv. nra. }
    destruct data; [reflexivity|]. cbn in Hl. lia.
  - rewrite Hts. apply seq_timestamps_sorted, HI.
Qed.

(** ** Node health population *)

Inductive NodeHealthStatus := healthy | degraded | down.

Definition NodeHealthStatus_eqb (a b : NodeHealthStatus) : bool :=
  match a, b with
  | healthy, healthy | degraded, degraded | down, down => true
  | _, _ => false
  end.

Record NodeMetric := {
  nodeId : string; load : Q; health : Q; status : NodeHealthStatus; region : string }.

Definition determineStatus (health : Q) : NodeHealthStatus :=
  if Qle_bool 80 health then healthy
  else if Qle_bool 40 health then degraded
  else down.

Definition REGIONS : list string := ["us-east"; "us-west"; "eu-central"; "ap-south"]%string.
Definition NODE_COUNT : nat := 24.

(** [String(n)] for a natural number [n]: its decimal digits. *)
Fixpoint decimal_digits (fuel n : nat) (acc : string) : string :=
  match fuel with
  | O => acc
  | S fuel' =>
      let acc' := String (ascii_of_nat (48 + n mod 10)) acc in
      if (n <? 10)%nat then acc' else decimal_digits fuel' (n / 10) acc'
  end.

Definition String_of_nat (n : nat) : string := decimal_digits (S n) n "".

Fixpoint zeros (k : nat) : string :=
  match k with O => "" | S k' => String "0" (zeros k') end.

(** [s.padStart(len, "0")] *)
Definition padStart (len : nat) (s : string) : string :=
  (zeros (len - String.length s) ++ s)%string.

(** The callback of [Array.from({ length: NODE_COUNT }, (_, i) => ...)]. *)
Definition generateNode (i : nat) (rng : Rng) : NodeMetric * Rng :=
  let regionIndex := (i mod List.length REGIONS)%nat in
  let '(r, rng) := Math_random rng in
  let baseLoad := 30 + r * 40 in
  let '(r, rng) := Math_random rng in
  let '(health, rng) :=
    if Qltb 0.15 r then
      let '(r, rng) := Math_random rng in (85 + r * 15, rng)
    else
      let '(r, rng) := Math_random rng in
      if Qltb 0.5 r then
        let '(r, rng) := Math_random rng in (50 + r * 25, rng)
      else
        let '(r, rng) := Math_random rng in (15 + r * 20, rng) in
  ({| nodeId := ("node-" ++ padStart 2 (String_of_nat (i + 1)))%string;
      load := Math_round baseLoad;
      health := Math_round health;
      status := determineStatus health;
      region := nth regionIndex REGIONS ""%string |}, rng).

(** [Array.from({ length: n }, f)] with [f] called on [i], [i+1], ... *)
Fixpoint Array_from_at {A : Type} (i n : nat) (f : nat -> Rng -> A * Rng) (rng : Rng)
  : list A * Rng :=
  match n with
  | O => ([], rng)
  | S n' =>
      let '(x, rng') := f i rng in
      let '(xs, rng'') := Array_from_at (S i) n' f rng' in
      (x :: xs, rng'')
  end.

Definition generateNodeMetrics (rng : Rng) : list NodeMetric * Rng :=
  Array_from_at 0 NODE_COUNT generateNode rng.

(** The callback of [current.map(node => ...)] in [updateNodeMetrics]. *)
Definition updateNode (node : NodeMetric) (rng : Rng) : NodeMetric * Rng :=
  let '(r, rng) := Math_random rng in
  let healthDelta := (r - 0.5) * 3 in
  (* node.status === "down" && Math.random() < 0.3 *)
  let '(boost, rng) :=
    if NodeHealthStatus_eqb (status node) down
    then let '(r, rng) := Math_random rng in (Qltb r 0.3, rng)
    else (false, rng) in
  let '(healthDelta, rng) :=
    if boost then (Math_abs healthDelta * 2, rng)
    else
      (* node.status === "degraded" && Math.random() < 0.1 *)
      let '(decline, rng) :=
        if NodeHealthStatus_eqb (status node) degraded
        then let '(r, rng) := Math_random rng in (Qltb r 0.1, rng)
        else (false, rng) in
      if decline then ((- Math_abs healthDelta) * 1.5, rng) else (healthDelta, rng) in
  let newHealth := Math_max 0 (Math_min 100 (health node + healthDelta)) in
  let '(r, rng) := Math_random rng in
  ({| nodeId := nodeId node;
      load := Math_max 0 (Math_min 100 (load node + (r - 0.5) * 8));
      health := Math_round newHealth;
      status := determineStatus newHealth;
      region := region node |}, rng).

(** [Array.prototype.map] with a callback that reads [Math.random()]. *)
Fixpoint map_rng {A B : Type} (f : A -> Rng -> B * Rng) (l : list A) (rng : Rng)
  : list B * Rng :=
  match l with
  | [] => ([], rng)
  | x :: l' =>
      let '(y, rng') := f x rng in
      let '(ys, rng'') := map_rng f l' rng' in
      (y :: ys, rng'')
  end.

Definition updateNodeMetrics (current : list NodeMetric) (rng : Rng) : list NodeMetric * Rng :=
  map_rng updateNode current rng.

Example generateNodeMetrics_ids :
  map nodeId (fst (generateNodeMetrics half_rng)) =
  ["node-01"; "node-02"; "node-03"; "node-04"; "node-05"; "node-06";
   "node-07"; "node-08"; "node-09"; "node-10"; "node-11"; "node-12";
   "node-13"; "node-14"; "node-15"; "node-16"; "node-17"; "node-18";
   "node-19"; "node-20"; "node-21"; "node-22"; "node-23"; "node-24"]%string.
Proof. vm_compute. reflexivity. Qed.

(** A well-formed degraded node: integer health 79, status [degraded]. *)
Definition node79 : NodeMetric :=
  {| nodeId := "node-01"; load := 50; health := 79; status := degraded;
     region := "us-east" |}.

(** Draws: 0.75 for the health delta (+0.75), 0.5 for the decline roll
    (which fails) and for the load noise. *)
Definition rng79 : Rng :=
  {| draws := fun n => if Nat.eqb n 0 then 0.75 else 0.5; pos := 0 |}.

(** C2 (code defect): one tick stores [health = Math.round(79.75) = 80] but
    [status = determineStatus(79.75) = degraded], while the threshold
    classification of the stored health 80 is [healthy]. *)
Theorem updateNodeMetrics_status_diverges :
  exists n,
    fst (updateNodeMetrics [node79] rng79) = [n] /\
    status node79 = determineStatus (health node79) /\
    health n == 80 /\ status n = degraded /\
    determineStatus (health n) = healthy.
Proof.
  eexists. split; [vm_compute; reflexivity |].
  vm_compute. repeat split; reflexivity.
Qed.

Lemma determineStatus_healthy h : 80 <= h -> determineStatus h = healthy.
Proof. intro H. unfold determineStatus. apply Qle_bool_iff in H. rewrite H. reflexivity. Qed.

Lemma determineStatus_degraded h : 40 <= h < 80 -> determineStatus h = degraded.
Proof.
  intros [H1 H2]. unfold determineStatus.
  destruct (Qle_bool 80 h) eqn:E; qbool; [lra|].
  apply Qle_bool_iff in H1. rewrite H1. reflexivity.
Qed.

Lemma determineStatus_down h : h < 40 -> determineStatus h = down.
Proof.
  intro H. unfold determineStatus.
  destruct (Qle_bool 80 h) eqn:E; qbool; [lra|].
  destruct (Qle_bool 40 h) eqn:E'; qbool; [lra|reflexivity].
Qed.

(** C9: a [down] node with integer health in [0,100], on a tick whose 0.3
    recovery roll succeeds, gets the delta [|base delta| * 2 >= 0], and its
    stored health, the rounded clamp of [health + delta], is at least its
    previous health. *)
Theorem updateNode_recovery (node : NodeMetric) (rng : Rng) (z : Z) :
  valid_draws rng ->
  status node = down ->
  health node == inject_Z z -> (0 <= z <= 100)%Z ->
  draws rng (1 + pos rng) < 0.3 ->
  let '(node', _) := updateNode node rng in
  let healthDelta := Math_abs ((draws rng (pos rng) - 0.5) * 3) * 2 in
  0 <= healthDelta /\
  health node' = Math_round (Math_max 0 (Math_min 100 (health node + healthDelta))) /\
  health node <= health node'.
Proof.
  intros Hv Hs Hz Hzr Hroll. unfold updateNode. cbn. rewrite Hs. cbn. cbn in Hroll.
  apply Qltb_true in Hroll. rewrite Hroll. cbn.
  assert (Hd : 0 <= Math_abs ((draws rng (pos rng) - 0.5) * 3) * 2).
  { unfold Math_abs. assert (H0 := Qabs_nonneg ((draws rng (pos rng) - 0.5) * 3)). lra. }
  split; [exact Hd | split; [reflexivity |]].
  assert (Hz100 : inject_Z z <= 100).
  { change 100 with (inject_Z 100). rewrite <- Zle_Qle. lia. }
  apply Qle_trans with (inject_Z z); [lra |].
  apply Math_round_ge.
  eapply Qle_trans; [| apply Math_max_ge_r].
  apply Math_min_glb; lra.
Qed.

Lemma generateNode_fields i rng :
  nodeId (fst (generateNode i rng)) = ("node-" ++ padStart 2 (String_of_nat (i + 1)))%string /\
  region (fst (generateNode i rng)) = nth (i mod 4) REGIONS ""%string.
Proof.
  unfold generateNode. cbn.
  split_ifs; split; reflexivity.
Qed.

Lemma generateNode_draws i rng : draws (snd (generateNode i rng)) = draws rng.
Proof. unfold generateNode. cbn. split_ifs; reflexivity. Qed.

Lemma generateNode_status i rng :
  valid_draws rng ->
  status (fst (generateNode i rng)) = determineStatus (health (fst (generateNode i rng))).
Proof.
  intro Hv. unfold generateNode. cbn.
  draw_bounds Hv. split_ifs; draw_bounds Hv.
  - rewrite !determineStatus_healthy; [reflexivity | | lra].
    apply Qle_trans with (inject_Z 85); [unfold inject_Z; lra |].
    apply Math_round_ge. unfold inject_Z. lra.
  - rewrite !determineStatus_degraded; [reflexivity | | lra].
    split.
    + apply Qle_trans with (inject_Z 50); [unfold inject_Z; lra |].
      apply Math_round_ge. unfold inject_Z. lra.
    + apply Qle_lt_trans with (inject_Z 75); [| unfold inject_Z; lra].
      apply Math_round_le. unfold inject_Z. lra.
  - rewrite !determineStatus_down; [reflexivity | | lra].
    apply Qle_lt_trans with (inject_Z 35); [| unfold inject_Z; lra].
    apply Math_round_le. unfold inject_Z. lra.
Qed.

Lemma Array_from_at_map {A B : Type} (g : A -> B) (h : nat -> B)
    (f : nat -> Rng -> A * Rng) i n rng :
  (forall j r, g (fst (f j r)) = h j) ->
  map g (fst (Array_from_at i n f rng)) = map h (seq i n).
Proof.
  intro Hf. revert i rng. induction n as [|n IH]; intros i rng; [reflexivity|].
  cbn [Array_from_at seq map].
  specialize (Hf i rng).
  destruct (f i rng) as [x rng'].
  specialize (IH (S i) rng').
  destruct (Array_from_at (S i) n f rng') as [xs rng'']. cbn in *.
  rewrite Hf, IH. reflexivity.
Qed.

Lemma Array_from_at_Forall {A : Type} (P : A -> Prop) (f : nat -> Rng -> A * Rng) i n rng :
  (forall j r, valid_draws r -> P (fst (f j r))) ->
  (forall j r, draws (snd (f j r)) = draws r) ->
  valid_draws rng ->
  Forall P (fst (Array_from_at i n f rng)).
Proof.
  intros HP Hd. revert i rng. induction n as [|n IH]; intros i rng Hv; [constructor|].
  cbn [Array_from_at].
  specialize (HP i rng Hv). specialize (Hd i rng).
  destruct (f i rng) as [x rng'].
  assert (Hv' : valid_draws rng') by (unfold valid_draws in *; cbn in Hd; rewrite Hd; exact Hv).
  specialize (IH (S i) rng' Hv').
  destruct (Array_from_at (S i) n f rng') as [xs rng'']. cbn in *.
  constructor; assumption.
Qed.

(** C7: the default population has 24 nodes, ids [node-01] .. [node-24] in
    order, the region of node [i] is [REGIONS[i mod 4]], and whatever the
    draws each node's stored status is the classification of its stored
    health. *)
Theorem generateNodeMetrics_spec (rng : Rng) :
  valid_draws rng ->
  let nodes := fst (generateNodeMetrics rng) in
  List.length nodes = 24%nat /\
  map nodeId nodes =
  ["node-01"; "node-02"; "node-03"; "node-04"; "node-05"; "node-06";
   "node-07"; "node-08"; "node-09"; "node-10"; "node-11"; "node-12";
   "node-13"; "node-14"; "node-15"; "node-16"; "node-17"; "node-18";
   "node-19"; "node-20"; "node-21"; "node-22"; "node-23"; "node-24"]%string /\
  map region nodes = map (fun i => nth (i mod 4) REGIONS ""%string) (seq 0 24) /\
  Forall (fun n => status n = determineStatus (health n)) nodes.
Proof.
  intros Hv nodes. unfold nodes, generateNodeMetrics.
  split; [| split; [| split]].
  - rewrite <- (length_map (fun _ => tt)).
    rewrite (Array_from_at_map (fun _ => tt) (fun _ => tt)) by reflexivity.
    reflexivity.
  - rewrite (Array_from_at_map nodeId (fun i => ("node-" ++ padStart 2 (String_of_nat (i + 1)))%string))
      by (intros; apply generateNode_fields).
    vm_compute. reflexivity.
  - apply Array_from_at_map. intros; apply generateNode_fields.
  - apply Array_from_at_Forall; [| apply generateNode_draws | exact Hv].
    intros j r Hr. apply generateNode_status, Hr.
Qed.

(** ** [updateNodeMetrics] on the heap

    Node objects live on a heap; location [l] holds the [l]-th object
    allocated, and an array of nodes is a list of locations.
    [current.map(node => ({ ...node, ... }))] reads each referenced node,
    allocates the new object and returns a new array of references. *)

Definition Heap := list NodeMetric.
Definition Loc := nat.

Definition alloc (h : Heap) (o : NodeMetric) : Loc * Heap := (List.length h, h ++ [o]).

Fixpoint updateNodeMetrics_heap (h : Heap) (current : list Loc) (rng : Rng)
  : option (list Loc * Heap * Rng) :=
  match current with
  | [] => Some ([], h, rng)
  | l :: ls =>
      match nth_error h l with
      | None => None
      | Some node =>
          let '(node', rng') := updateNode node rng in
          let '(l', h') := alloc h node' in
          match updateNodeMetrics_heap h' ls rng' with
          | None => None
          | Some (ls', h'', rng'') => Some (l' :: ls', h'', rng'')
          end
      end
  end.

Lemma updateNode_frame node rng :
  nodeId (fst (updateNode node rng)) = nodeId node /\
  region (fst (updateNode node rng)) = region node.
Proof.
  unfold updateNode. cbn.
  destruct (status node); cbn; split_ifs; split; reflexivity.
Qed.

(** The heap version reads what the value version computes. *)
Lemma updateNodeMetrics_heap_values h current rng nodes :
  map (nth_error h) current = map Some nodes ->
  exists ls' h' rng',
    updateNodeMetrics_heap h current rng = Some (ls', h', rng') /\
    (exists fresh, h' = h ++ fresh) /\
    Forall (fun l => (List.length h <= l)%nat) ls' /\
    map (nth_error h') ls' = map Some (fst (updateNodeMetrics nodes rng)).
Proof.
  revert h rng nodes. induction current as [|l ls IH]; intros h rng nodes Hn.
  - destruct nodes; [|discriminate]. exists [], h, rng.
    split; [reflexivity|]. split; [exists []; symmetry; apply app_nil_r|].
    split; constructor.
  - destruct nodes as [|n nodes]; [discriminate|].
    cbn in Hn. injection Hn as Hl Hls.
    cbn [updateNodeMetrics_heap]. rewrite Hl.
    unfold updateNodeMetrics. cbn [map_rng].
    destruct (updateNode n rng) as [n' rng'].
    unfold alloc.
    assert (Hls' : map (nth_error (h ++ [n'])) ls = map Some nodes).
    { rewrite <- Hls. apply map_ext_in. intros l' Hin.
      assert (Hlt : (l' < List.length h)%nat).
      { apply nth_error_Some.
        assert (Hm : In (nth_error h l') (map (nth_error h) ls)) by (apply in_map, Hin).
        rewrite Hls in Hm. apply in_map_iff in Hm. destruct Hm as (x & Hx & _).
        rewrite <- Hx. discriminate. }
      apply nth_error_app1, Hlt. }
    destruct (IH (h ++ [n']) rng' nodes Hls') as (ls' & h' & rng'' & Hrun & (fresh & Hfresh) & Hfr & Hval).
    rewrite Hrun.
    unfold updateNodeMetrics in Hval.
    destruct (map_rng updateNode nodes rng') as [ys r3].
    exists (List.length h :: ls'), h', rng''.
    split; [reflexivity|].
    split; [exists (n' :: fresh); rewrite Hfresh, <- app_assoc; reflexivity |].
    split.
    + constructor; [lia|].
      eapply Forall_impl; [| exact Hfr]. intros a Ha. cbn in Ha.
      rewrite length_app in Ha. lia.
    + cbn. rewrite Hval. f_equal.
      rewrite Hfresh, <- app_assoc, nth_error_app2 by lia.
      rewrite Nat.sub_diag. reflexivity.
Qed.

Lemma updateNodeMetrics_frame nodes rng :
  let nodes' := fst (updateNodeMetrics nodes rng) in
  List.length nodes' = List.length nodes /\
  map nodeId nodes' = map nodeId nodes /\ map region nodes' = map region nodes.
Proof.
  unfold updateNodeMetrics. revert rng.
  induction nodes as [|n nodes IH]; intro rng; [repeat split|].
  cbn [map_rng].
  destruct (updateNode_frame n rng) as [Hid Hreg].
  destruct (updateNode n rng) as [n' rng'].
  specialize (IH rng').
  destruct (map_rng updateNode nodes rng') as [ys r'']. cbn in *.
  destruct IH as (H1 & H2 & H3).
  rewrite H1, H2, H3, Hid, Hreg. repeat split.
Qed.

Lemma nth_error_prefix (h fresh : Heap) (current : list Loc) (nodes : list NodeMetric) :
  map (nth_error h) current = map Some nodes ->
  map (nth_error (h ++ fresh)) current = map Some nodes.
Proof.
  intro Hn. rewrite <- Hn. apply map_ext_in. intros l Hin.
  assert (Hm : In (nth_error h l) (map (nth_error h) current)) by (apply in_map, Hin).
  rewrite Hn in Hm. apply in_map_iff in Hm. destruct Hm as (x & Hx & _).
  apply nth_error_app1, nth_error_Some. rewrite <- Hx. discriminate.
Qed.

(** C8: [updateNodeMetrics] mutates nothing: on a heap where the argument
    array [current] refers to the nodes [nodes], the call only appends fresh
    objects, so [current] still reads [nodes] afterwards; the result array
    refers only to fresh objects, which are the nodes of the value-level
    [updateNodeMetrics nodes]; that population has the length of [nodes]
    and, index by index, the same ids and regions. *)
Theorem updateNodeMetrics_pure (h : Heap) (current : list Loc) (nodes : list NodeMetric)
    (rng : Rng) :
  map (nth_error h) current = map Some nodes ->
  exists ls' h' rng',
    updateNodeMetrics_heap h current rng = Some (ls', h', rng') /\
    (exists fresh, h' = h ++ fresh) /\
    map (nth_error h') current = map Some nodes /\
    Forall (fun l => (List.length h <= l)%nat) ls' /\
    let nodes' := fst (updateNodeMetrics nodes rng) in
    map (nth_error h') ls' = map Some nodes' /\
    List.length nodes' = List.length nodes /\
    map nodeId nodes' = map nodeId nodes /\ map region nodes' = map region nodes.
Proof.
  intro Hn.
  destruct (updateNodeMetrics_heap_values h current rng nodes Hn)
    as (ls' & h' & rng' & Hrun & (fresh & Hfresh) & Hfr & Hval).
  exists ls', h', rng'.
  split; [exact Hrun|].
  split; [exists fresh; exact Hfresh|].
  split; [rewrite Hfresh; apply nth_error_prefix, Hn|].
  split; [exact Hfr|].
  split; [exact Hval|].
  apply updateNodeMetrics_frame.
Qed.

(** ** Witnesses: the hypotheses of the claims hold at concrete inputs *)

Lemma generateDataPoint_bounds_witness :
  valid_draws half_rng /\
  ((let '(p, _, _) := generateDataPoint new_MetricsGenerator 0 half_rng in
    (0 <= cpu p <= 100) /\ (0 <= memory p <= 100) /\ 0 <= rps p /\
    0 < p50 p /\ p50 p <= p95 p /\ p95 p <= p99 p /\ 0 <= errorRate p) /\
   (forall loadFactor r50 r95 r99, 0 <= r95 -> 0 <= r99 ->
    let '(a, b, c) := latencyPercentiles loadFactor r50 r95 r99 in
    0 < a /\ a < b /\ b < c)).
Proof.
  split; [apply valid_draws_half |].
  apply (generateDataPoint_bounds new_MetricsGenerator 0 half_rng valid_draws_half).
Defined.

Lemma generateDataPoint_rps_unguarded_witness :
  valid_draws half_rng /\
  (let '(p, _, _) := generateDataPoint new_MetricsGenerator 0 half_rng in
   500 <= rps p /\
   rps p = Math_round (1200 * (0.5 + cpu p / 100 * 0.8)
                       + (draws half_rng (4 + pos half_rng) - 0.5) * 200)).
Proof.
  split; [apply valid_draws_half |].
  apply (generateDataPoint_rps_unguarded new_MetricsGenerator 0 half_rng valid_draws_half).
Defined.

Lemma generateHistoricalData_shape_witness :
  0 < 2000 /\
  (let '(data, _, _) := generateHistoricalData new_MetricsGenerator 1000000 5 2000 half_rng in
   Z.of_nat (List.length data) = Z.max 0 (Qfloor (5 * 60 * 1000 / 2000)) /\
   (0 <= 5 -> Z.of_nat (List.length data) = Qfloor (5 * 60 * 1000 / 2000)) /\
   (5 <= 0 -> data = []) /\
   Sorted Qlt (map timestamp data)).
Proof.
  split; [vm_compute; reflexivity |].
  apply (generateHistoricalData_shape new_MetricsGenerator 1000000 5 2000 half_rng).
  vm_compute. reflexivity.
Defined.

(** Draw 9 of the first call, its idle roll, is 0: a spike fires. *)
Definition spike_rng : Rng :=
  {| draws := fun n => if Nat.eqb n 9 then 0 else 0.5; pos := 0 |}.

Lemma valid_draws_spike : valid_draws spike_rng.
Proof. intro n. cbn. destruct (Nat.eqb n 9); lra. Qed.

Lemma spike_state_machine_witness :
  valid_draws spike_rng /\
  (errorSpikeCooldown new_MetricsGenerator == 0 \/ errorSpikeCooldown new_MetricsGenerator == 1) /\
  draws spike_rng (9 + pos spike_rng) < 0.02 /\
  (let s := (new_MetricsGenerator, spike_rng) in
   (2 <= errorRate (sample_at 0 s) <= 5 /\ errorSpikeCooldown (fst (ticks 1 s)) == 15) /\
   (forall j, (1 <= j <= 10)%nat ->
      let r := snd (ticks j s) in
      let p := sample_at j s in
      errorSpikeCooldown (fst (ticks (S j) s)) == 15 - inject_Z (Z.of_nat j) /\
      errorRate p = Math_round ((0.05 + cpu p / 100 * 0.15 + draws r (8 + pos r) * 0.1) * 100) / 100) /\
   (forall j, (11 <= j <= 14)%nat ->
      errorSpikeCooldown (fst (ticks (S j) s)) == 15 - inject_Z (Z.of_nat j) /\
      0.5 <= errorRate (sample_at j s) <= 1.5) /\
   (let r := snd (ticks 15 s) in
    draws r (9 + pos r) < 0.02 ->
    2 <= errorRate (sample_at 15 s) <= 5 /\ errorSpikeCooldown (fst (ticks 16 s)) == 15) /\
   (forall g r ts, 2 <= errorSpikeCooldown g ->
      errorSpikeCooldown (snd (fst (generateDataPoint g ts r))) == errorSpikeCooldown g - 1)).
Proof.
  assert (Hc : errorSpikeCooldown new_MetricsGenerator == 0 \/
               errorSpikeCooldown new_MetricsGenerator == 1) by (left; reflexivity).
  assert (Hr : draws spike_rng (9 + pos spike_rng) < 0.02) by (vm_compute; reflexivity).
  split; [exact valid_draws_spike |].
  split; [exact Hc |].
  split; [exact Hr |].
  apply (spike_state_machine new_MetricsGenerator spike_rng valid_draws_spike Hc Hr).
Defined.

Lemma generateNodeMetrics_spec_witness :
  valid_draws half_rng /\
  (let nodes := fst (generateNodeMetrics half_rng) in
   List.length nodes = 24%nat /\
   map nodeId nodes =
   ["node-01"; "node-02"; "node-03"; "node-04"; "node-05"; "node-06";
    "node-07"; "node-08"; "node-09"; "node-10"; "node-11"; "node-12";
    "node-13"; "node-14"; "node-15"; "node-16"; "node-17"; "node-18";
    "node-19"; "node-20"; "node-21"; "node-22"; "node-23"; "node-24"]%string /\
   map region nodes = map (fun i => nth (i mod 4) REGIONS ""%string) (seq 0 24) /\
   Forall (fun n => status n = determineStatus (health n)) nodes).
Proof.
  split; [apply valid_draws_half |].
  apply (generateNodeMetrics_spec half_rng valid_draws_half).
Defined.

Lemma updateNodeMetrics_pure_witness :
  map (nth_error [node79]) [0%nat] = map Some [node79] /\
  exists ls' h' rng',
    updateNodeMetrics_heap [node79] [0%nat] rng79 = Some (ls', h', rng') /\
    (exists fresh, h' = [node79] ++ fresh) /\
    map (nth_error h') [0%nat] = map Some [node79] /\
    Forall (fun l => (List.length [node79] <= l)%nat) ls' /\
    let nodes' := fst (updateNodeMetrics [node79] rng79) in
    map (nth_error h') ls' = map Some nodes' /\
    List.length nodes' = List.length [node79] /\
    map nodeId nodes' = map nodeId [node79] /\ map region nodes' = map region [node79].
Proof.
  assert (Hn : map (nth_error [node79]) [0%nat] = map Some [node79]) by reflexivity.
  split; [exact Hn |].
  apply (updateNodeMetrics_pure [node79] [0%nat] [node79] rng79 Hn).
Defined.

(** A [down] node of health 35 whose recovery roll (draw 1) succeeds. *)
Definition node35 : NodeMetric :=
  {| nodeId := "node-02"; load := 50; health := 35; status := down;
     region := "us-west" |}.

Definition recovery_rng : Rng :=
  {| draws := fun n => if Nat.eqb n 1 then 0.1 else 0.25; pos := 0 |}.

Lemma valid_draws_recovery : valid_draws recovery_rng.
Proof. intro n. cbn. destruct (Nat.eqb n 1); lra. Qed.

Lemma updateNode_recovery_witness :
  valid_draws recovery_rng /\ status node35 = down /\
  health node35 == inject_Z 35 /\ (0 <= 35 <= 100)%Z /\
  draws recovery_rng (1 + pos recovery_rng) < 0.3 /\
  (let '(node', _) := updateNode node35 recovery_rng in
   let healthDelta := Math_abs ((draws recovery_rng (pos recovery_rng) - 0.5) * 3) * 2 in
   0 <= healthDelta /\
   health node' = Math_round (Math_max 0 (Math_min 100 (health node35 + healthDelta))) /\
   health node35 <= health node').
Proof.
  assert (Hh : health node35 == inject_Z 35) by reflexivity.
  assert (Hz : (0 <= 35 <= 100)%Z) by lia.
  assert (Hr : draws recovery_rng (1 + pos recovery_rng) < 0.3) by (vm_compute; reflexivity).
  split; [exact valid_draws_recovery |].
  split; [reflexivity |].
  split; [exact Hh |]. split; [exact Hz |]. split; [exact Hr |].
  apply (updateNode_recovery node35 recovery_rng 35 valid_draws_recovery eq_refl Hh Hz Hr).
Defined.

(** ** The live window of the dashboard (src/src/components/Dashboard.tsx) *)

Definition UPDATE_INTERVAL : Q := 2000.

(** [arr.slice(start)] for an integer [start]. *)
Definition Array_slice {A : Type} (l : list A) (start : Z) : list A :=
  let len := Z.of_nat (List.length l) in
  let k := if (start <? 0)%Z then Z.max (len + start) 0 else Z.min start len in
  skipn (Z.to_nat k) l.

(** The updater [prev => ...] passed to [setMetricsData] by the live
    interval, for the selected range [minutes] and the new sample. *)
Definition appendSample (minutes : Q) (newPoint : MetricDataPoint)
    (prev : list MetricDataPoint) : list MetricDataPoint :=
  let maxPoints := Qfloor (minutes * 60 * 1000 / UPDATE_INTERVAL) in
  let updated := prev ++ [newPoint] in
  Array_slice updated (- maxPoints).

(** Successive ticks of the live interval at the times [tss]: each calls
    [generator.generateDataPoint(Date.now())], then the updater. *)
Fixpoint liveWindow (minutes : Q) (tss : list Q) (window : list MetricDataPoint)
    (this : MetricsGenerator) (rng : Rng) : list MetricDataPoint * MetricsGenerator * Rng :=
  match tss with
  | [] => (window, this, rng)
  | t :: tss' =>
      let '(newPoint, this', rng') := generateDataPoint this t rng in
      liveWindow minutes tss' (appendSample minutes newPoint window) this' rng'
  end.

(** [handleRangeChange(range)] (or [initializeData]) at time [now]: the
    backfill [generateHistoricalData(range.minutes, UPDATE_INTERVAL)], then
    live ticks at the times [tss]. *)
Definition rangeThenLive (this : MetricsGenerator) (now minutes : Q) (tss : list Q)
    (rng : Rng) : list MetricDataPoint * MetricsGenerator * Rng :=
  let '(historical, this', rng') := generateHistoricalData this now minutes UPDATE_INTERVAL rng in
  liveWindow minutes tss historical this' rng'.

Lemma historical_loop_length this now I P i k rng :
  List.length (fst (fst (historical_loop this now I P i k rng))) = k.
Proof.
  revert this i rng. induction k as [|k IH]; intros this i rng; [reflexivity|].
  cbn [historical_loop].
  destruct (generateDataPoint this _ rng) as [[p this'] rng'].
  specialize (IH this' (S i) rng').
  destruct (historical_loop this' now I P (S i) k rng') as [[d this''] rng''].
  cbn in *. rewrite IH. reflexivity.
Qed.

Lemma generateHistoricalData_length this now minutes I rng :
  Z.of_nat (List.length (fst (fst (generateHistoricalData this now minutes I rng)))) =
  Z.max 0 (Qfloor (minutes * 60 * 1000 / I)).
Proof. unfold generateHistoricalData. rewrite historical_loop_length. lia. Qed.

Lemma appendSample_shape minutes p prev :
  (1 <= Qfloor (minutes * 60 * 1000 / UPDATE_INTERVAL))%Z ->
  let w := appendSample minutes p prev in
  Z.of_nat (List.length w) =
    Z.min (Z.of_nat (List.length prev) + 1) (Qfloor (minutes * 60 * 1000 / UPDATE_INTERVAL)) /\
  (exists dropped, prev ++ [p] = dropped ++ w) /\
  (exists kept, w = kept ++ [p]).
Proof.
  unfold appendSample, Array_slice.
  set (M := Qfloor (minutes * 60 * 1000 / UPDATE_INTERVAL)). intros HM.
  rewrite length_app. cbn [List.length].
  replace (- M <? 0)%Z with true by (symmetry; apply Z.ltb_lt; lia).
  set (k := Z.to_nat (Z.max (Z.of_nat (List.length prev + 1) + - M) 0)).
  assert (Hk : (k <= List.length prev)%nat) by (unfold k; lia).
  split; [| split].
  - rewrite length_skipn, length_app. cbn [List.length]. unfold k. lia.
  - exists (firstn k (prev ++ [p])). symmetry. apply firstn_skipn.
  - exists (skipn k prev). rewrite skipn_app.
    replace (k - List.length prev)%nat with 0%nat by lia. reflexivity.
Qed.

Lemma liveWindow_length minutes tss window this rng :
  (1 <= Qfloor (minutes * 60 * 1000 / UPDATE_INTERVAL))%Z ->
  Z.of_nat (List.length window) = Qfloor (minutes * 60 * 1000 / UPDATE_INTERVAL) ->
  Z.of_nat (List.length (fst (fst (liveWindow minutes tss window this rng)))) =
    Qfloor (minutes * 60 * 1000 / UPDATE_INTERVAL).
Proof.
  intros HM. revert window this rng.
  induction tss as [|t tss IH]; intros window this rng Hw; [exact Hw|].
  cbn [liveWindow].
  destruct (generateDataPoint this t rng) as [[p this'] rng'].
  apply IH. destruct (appendSample_shape minutes p window HM) as [Hl _].
  rewrite Hl. lia.
Qed.

(** X1: when the range holds at least one sample ([maxPoints >= 1]), the
    live updater returns the last [min(prev.length + 1, maxPoints)] elements
    of [[...prev, newPoint]]: a suffix of it that ends with the new sample. *)
Theorem appendSample_window (minutes : Q) (p : MetricDataPoint) (prev : list MetricDataPoint) :
  (1 <= Qfloor (minutes * 60 * 1000 / UPDATE_INTERVAL))%Z ->
  let w := appendSample minutes p prev in
  Z.of_nat (List.length w) =
    Z.min (Z.of_nat (List.length prev) + 1) (Qfloor (minutes * 60 * 1000 / UPDATE_INTERVAL)) /\
  (exists dropped, prev ++ [p] = dropped ++ w) /\
  (exists kept, w = kept ++ [p]).
Proof. apply appendSample_shape. Qed.

(** X2: when the range is shorter than one update interval
    ([0 <= minutes < 1/30], so [maxPoints = 0]), [updated.slice(-0)] is the
    whole array: the live updater trims nothing and the window grows by one
    sample on every tick. *)
Theorem appendSample_zero_window (minutes : Q) (p : MetricDataPoint) (prev : list MetricDataPoint) :
  0 <= minutes -> minutes < 1 # 30 ->
  appendSample minutes p prev = prev ++ [p].
Proof.
  intros H0 H1. unfold appendSample, Array_slice.
  assert (HM : Qfloor (minutes * 60 * 1000 / UPDATE_INTERVAL) = 0%Z).
  { set (x := minutes * 60 * 1000 / UPDATE_INTERVAL).
    assert (Hx : 0 <= x < 1) by (unfold x, UPDATE_INTERVAL; qdiv; lra).
    assert (Hl := Qfloor_le x).
    assert (Hn := Qfloor_nonneg x (proj1 Hx)).
    assert (Qfloor x < 1)%Z by (apply inject_Z_lt_iff; unfold inject_Z at 2; lra).
    lia. }
  rewrite HM. cbn [Z.opp Z.ltb Z.compare].
  replace (Z.min 0 _) with 0%Z by lia. reflexivity.
Qed.

(** X3: after a range change (backfill of
    [generateHistoricalData(minutes, UPDATE_INTERVAL)]) followed by any number
    of live ticks, the chart window holds exactly
    [maxPoints = floor(minutes*60*1000/UPDATE_INTERVAL)] samples, whenever
    [maxPoints >= 1]. *)
Theorem rangeThenLive_length (this : MetricsGenerator) (now minutes : Q) (tss : list Q) (rng : Rng) :
  (1 <= Qfloor (minutes * 60 * 1000 / UPDATE_INTERVAL))%Z ->
  Z.of_nat (List.length (fst (fst (rangeThenLive this now minutes tss rng)))) =
    Qfloor (minutes * 60 * 1000 / UPDATE_INTERVAL).
Proof.
  intro HM. unfold rangeThenLive.
  assert (Hh := generateHistoricalData_length this now minutes UPDATE_INTERVAL rng).
  destruct (generateHistoricalData this now minutes UPDATE_INTERVAL rng) as [[hist this'] rng'].
  cbn [fst] in Hh.
  apply liveWindow_length; [exact HM | lia].
Qed.

(** ** The cluster overview of the dashboard *)

(** [nodeMetrics.filter((n) => n.status === s).length] *)
Definition countStatus (s : NodeHealthStatus) (nodes : list NodeMetric) : nat :=
  List.length (filter (fun n => NodeHealthStatus_eqb (status n) s) nodes).

(** [Math.round((healthyCount / nodeMetrics.length) * 100)]; on an empty
    population [0 / 0] is [NaN], rendered as [None]. *)
Definition clusterHealth (nodes : list NodeMetric) : option Q :=
  match List.length nodes with
  | O => None
  | len => Some (Math_round (inject_Z (Z.of_nat (countStatus healthy nodes))
                             / inject_Z (Z.of_nat len) * 100))
  end.

Lemma countStatus_le s nodes : (countStatus s nodes <= List.length nodes)%nat.
Proof. unfold countStatus. apply filter_length_le. Qed.

Lemma countStatus_healthy_all nodes :
  countStatus healthy nodes = List.length nodes <-> Forall (fun n => status n = healthy) nodes.
Proof.
  unfold countStatus. induction nodes as [|n nodes IH]; cbn; [split; constructor|].
  assert (Hle := filter_length_le (fun n => NodeHealthStatus_eqb (status n) healthy) nodes).
  destruct (status n) eqn:Es; cbn.
  - rewrite Forall_cons_iff. split.
    + intro H. split; [exact Es | apply IH; lia].
    + intros [_ H]. apply IH in H. lia.
  - split; [lia | intro H; inversion H; congruence].
  - split; [lia | intro H; inversion H; congruence].
Qed.

(** [Math.round x <= z] as soon as [x < z + 0.5]. *)
Lemma Math_round_lt z x : x < inject_Z z + 0.5 -> Math_round x <= inject_Z z.
Proof.
  intro H. unfold Math_round. rewrite <- Zle_Qle.
  assert (Hl := Qfloor_le (x + 0.5)).
  assert (Qfloor (x + 0.5) < z + 1)%Z.
  { apply inject_Z_lt_iff. rewrite inject_Z_plus. change (inject_Z 1) with 1. lra. }
  lia.
Qed.

Lemma Q_of_nat_pos k : (0 < k)%nat -> 0 < inject_Z (Z.of_nat k).
Proof. intro H. change 0 with (inject_Z 0). rewrite <- Zlt_Qlt. lia. Qed.

(** X4: the Healthy, Degraded and Down counters of the cluster overview add
    up to the number of nodes. *)
Theorem countStatus_partition (nodes : list NodeMetric) :
  (countStatus healthy nodes + countStatus degraded nodes + countStatus down nodes)%nat =
  List.length nodes.
Proof.
  unfold countStatus. induction nodes as [|n nodes IH]; [reflexivity|].
  cbn. destruct (status n); cbn; lia.
Qed.

(** X5: the Cluster Health figure is [NaN] for an empty population;
    otherwise it is an integer percentage in [0,100], it is 100 when every
    node is healthy, and with at most 199 nodes it is 100 only when every
    node is healthy. *)
Theorem clusterHealth_range (nodes : list NodeMetric) :
  (nodes = [] -> clusterHealth nodes = None) /\
  (nodes <> [] -> exists p z, clusterHealth nodes = Some p /\ p = inject_Z z /\
     0 <= p <= 100 /\
     (Forall (fun n => status n = healthy) nodes -> p == 100) /\
     ((List.length nodes <= 199)%nat -> p == 100 -> Forall (fun n => status n = healthy) nodes)).
Proof.
  split; [intros ->; reflexivity |]. intro Hne.
  unfold clusterHealth.
  assert (Hlen : (0 < List.length nodes)%nat) by (destruct nodes; [congruence | cbn; lia]).
  assert (Hc := countStatus_le healthy nodes).
  assert (Hall := countStatus_healthy_all nodes).
  set (h := countStatus healthy nodes) in *.
  set (len := List.length nodes) in *.
  destruct len as [|len'] eqn:El; [lia|]. rewrite <- El in *.
  set (H := inject_Z (Z.of_nat h)). set (L := inject_Z (Z.of_nat len)).
  assert (HL : 0 < L) by (apply Q_of_nat_pos, Hlen).
  assert (HH : 0 <= H) by (unfold H; change 0 with (inject_Z 0); rewrite <- Zle_Qle; lia).
  assert (HHL : H <= L) by (unfold H, L; rewrite <- Zle_Qle; lia).
  assert (Hi : 0 < / L) by (apply Qinv_lt_0_compat, HL).
  assert (Hi1 : L * / L == 1) by (apply Qmult_inv_r; lra).
  assert (Hq : 0 <= H / L * 100 <= 100) by (unfold Qdiv; split; nra).
  exists (Math_round (H / L * 100)), (Qfloor (H / L * 100 + 0.5)).
  split; [reflexivity | split; [reflexivity | split; [| split]]].
  - split; [apply (Math_round_ge 0) | apply (Math_round_le 100)]; unfold inject_Z; lra.
  - intro Hh. apply Hall in Hh. unfold H, L. rewrite Hh.
    assert (E : inject_Z (Z.of_nat len) / inject_Z (Z.of_nat len) * 100 == inject_Z 100)
      by (fold L; unfold Qdiv; rewrite Hi1; reflexivity).
    apply Qle_antisym.
    + apply (Math_round_le 100). rewrite E. apply Qle_refl.
    + apply (Math_round_ge 100). rewrite E. apply Qle_refl.
  - intros H199 Hp. apply Hall.
    destruct (Nat.eq_dec h len) as [Eq|Ne]; [exact Eq | exfalso].
    assert (Hh1 : H <= L - 1).
    { assert (Hz : (Z.of_nat h <= Z.of_nat len - 1)%Z) by lia.
      rewrite Zle_Qle, inject_Z_pred in Hz. exact Hz. }
    assert (HL199 : L <= 199) by (unfold L; change 199 with (inject_Z (Z.of_nat 199)); rewrite <- Zle_Qle; lia).
    assert (Hinv : 1 <= 199 * / L) by nra.
    assert (Hlt : H / L * 100 < inject_Z 99 + 0.5) by (unfold Qdiv; unfold inject_Z at 1; nra).
    assert (Hr := Math_round_lt 99 _ Hlt). unfold inject_Z in Hr. lra.
Qed.

(** ** The node heat map (src/src/components/HeatMap.tsx) *)

(** [MARGIN = { top: 40, right: 100, bottom: 20, left: 80 }] *)
Definition MARGIN_top : Q := 40.
Definition MARGIN_right : Q := 100.
Definition MARGIN_bottom : Q := 20.
Definition MARGIN_left : Q := 80.
Definition COLS : Z := 6.

Record HeatMapLayout := {
  innerWidth : Q; innerHeight : Q; rows : Z; cellWidth : Q; cellHeight : Q }.

(** The layout constants of [HeatMap] for [data.length = n]. *)
Definition heatMapLayout (n : nat) (width height : Q) : HeatMapLayout :=
  let innerWidth := width - MARGIN_left - MARGIN_right in
  let innerHeight := height - MARGIN_top - MARGIN_bottom in
  let rows := Qceiling (inject_Z (Z.of_nat n) / inject_Z COLS) in
  {| innerWidth := innerWidth; innerHeight := innerHeight; rows := rows;
     cellWidth := innerWidth / inject_Z COLS;
     cellHeight := innerHeight / inject_Z rows |}.

(** The [translate(x, y)] of the cell of the [i]-th node. *)
Definition cellTranslate (L : HeatMapLayout) (i : nat) : Q * Q :=
  let row := Qfloor (inject_Z (Z.of_nat i) / inject_Z COLS) in
  let col := (Z.of_nat i mod COLS)%Z in
  (inject_Z col * cellWidth L, inject_Z row * cellHeight L).

Lemma cell_row_col n i :
  (i < n)%nat ->
  let row := Qfloor (inject_Z (Z.of_nat i) / inject_Z COLS) in
  let R := Qceiling (inject_Z (Z.of_nat n) / inject_Z COLS) in
  row = (Z.of_nat i / 6)%Z /\ (0 <= row)%Z /\ (row + 1 <= R)%Z.
Proof.
  intros Hi row R. unfold row, R, COLS.
  rewrite <- Zdiv_Qdiv.
  assert (Hc := Qle_ceiling (inject_Z (Z.of_nat n) / inject_Z 6)).
  set (c := Qceiling _) in *.
  assert (Hn : (Z.of_nat i + 1 <= Z.of_nat n)%Z) by lia.
  assert (Hq : inject_Z (Z.of_nat i / 6 * 6)%Z < inject_Z (Z.of_nat n)) by (rewrite <- Zlt_Qlt; pose proof (Z.mul_div_le (Z.of_nat i) 6); lia).
  assert (Hq' : inject_Z (Z.of_nat i / 6)%Z < inject_Z c).
  { rewrite inject_Z_mult in Hq. eapply Qlt_le_trans; [| exact Hc].
    unfold Qdiv. change (inject_Z 6) with 6 in *. change (/ 6) with (1 # 6). lra. }
  rewrite <- Zlt_Qlt in Hq'. split; [reflexivity | split; [apply Z.div_pos |]]; lia.
Qed.

(** X6: on a chart larger than its margins ([width > 180], [height > 60]),
    the heat map cells of the [n] nodes lie inside the inner drawing area
    ([0 <= x], [x + cellWidth <= innerWidth], and the same vertically), and
    distinct nodes get cells at distinct positions. *)
Theorem heatMap_cells_tile (n : nat) (width height : Q) :
  180 < width -> 60 < height ->
  let L := heatMapLayout n width height in
  (forall i, (i < n)%nat ->
     let '(x, y) := cellTranslate L i in
     0 <= x /\ x + cellWidth L <= innerWidth L /\
     0 <= y /\ y + cellHeight L <= innerHeight L) /\
  (forall i j, (i < n)%nat -> (j < n)%nat ->
     fst (cellTranslate L i) == fst (cellTranslate L j) ->
     snd (cellTranslate L i) == snd (cellTranslate L j) -> i = j).
Proof.
  intros Hw Hh L.
  set (W := innerWidth L). set (H := innerHeight L). set (R := rows L).
  assert (HW : 0 < W) by (unfold W, L; cbn; unfold MARGIN_left, MARGIN_right; lra).
  assert (HH : 0 < H) by (unfold H, L; cbn; unfold MARGIN_top, MARGIN_bottom; lra).
  assert (Ecw : cellWidth L = W * (1 # 6)) by reflexivity.
  assert (Ech : cellHeight L = H / inject_Z R) by reflexivity.
  assert (ER : R = Qceiling (inject_Z (Z.of_nat n) / inject_Z COLS)) by reflexivity.
  split.
  - intros i Hi. destruct (cell_row_col n i Hi) as (Er & Hr0 & HrR).
    rewrite <- ER in HrR. cbn [cellTranslate]. rewrite Er in Hr0, HrR |- *. rewrite Ecw, Ech.
    set (c := (Z.of_nat i mod COLS)%Z). set (r := (Z.of_nat i / 6)%Z).
    assert (Hc : inject_Z 0 <= inject_Z c /\ inject_Z (c + 1) <= inject_Z 6)
      by (rewrite <- !Zle_Qle; unfold c, COLS;
          pose proof (Z.mod_pos_bound (Z.of_nat i) 6); lia).
    assert (Hr : inject_Z 0 <= inject_Z r /\ inject_Z (r + 1) <= inject_Z R)
      by (rewrite <- !Zle_Qle; lia).
    rewrite !inject_Z_plus in Hc, Hr. change (inject_Z 1) with 1 in Hc, Hr.
    change (inject_Z 0) with 0 in Hc, Hr. change (inject_Z 6) with 6 in Hc.
    assert (HR : 0 < inject_Z R) by lra.
    assert (Hi1 : inject_Z R * / inject_Z R == 1) by (apply Qmult_inv_r; lra).
    assert (Hinv : 0 < / inject_Z R) by (apply Qinv_lt_0_compat, HR).
    unfold Qdiv.
    assert (HK : 0 < H * / inject_Z R) by (apply Qmult_lt_0_compat; assumption).
    assert (EH : inject_Z R * (H * / inject_Z R) == H)
      by (rewrite Qmult_comm, <- Qmult_assoc, (Qmult_comm (/ _)), Hi1; ring).
    set (K := H * / inject_Z R) in *. set (rq := inject_Z r) in *. set (Rq := inject_Z R) in *.
    repeat split; nra.
  - intros i j Hi Hj Ex Ey. cbn [cellTranslate fst snd] in Ex, Ey.
    destruct (cell_row_col n i Hi) as (Eri & _ & HrR).
    destruct (cell_row_col n j Hj) as (Erj & _ & _).
    rewrite Eri, Erj in Ey.
    assert (HR : 0 < inject_Z R).
    { change 0 with (inject_Z 0). rewrite <- Zlt_Qlt. rewrite <- ER in HrR.
      pose proof (Z.div_pos (Z.of_nat i) 6). lia. }
    assert (Hch : 0 < cellHeight L) by (rewrite Ech; unfold Qdiv; apply Qmult_lt_0_compat;
                                           [exact HH | apply Qinv_lt_0_compat, HR]).
    assert (Hcw : 0 < cellWidth L) by (rewrite Ecw; lra).
    apply Qmult_inj_r in Ex; [| lra]. apply Qmult_inj_r in Ey; [| lra].
    apply (proj1 (inject_Z_injective _ _)) in Ex.
    apply (proj1 (inject_Z_injective _ _)) in Ey. unfold COLS in Ex.
    pose proof (Z.div_mod (Z.of_nat i) 6 ltac:(lia)).
    pose proof (Z.div_mod (Z.of_nat j) 6 ltac:(lia)). lia.
Qed.

(** ** Chart y-scales (ThroughputChart.tsx, LatencyChart.tsx) *)

(** [d3.max(data, f)]: the running maximum, kept when [max < value] fails;
    [None] is [undefined] (no data). *)
Fixpoint d3_max_from {A : Type} (f : A -> Q) (acc : option Q) (l : list A) : option Q :=
  match l with
  | [] => acc
  | x :: l' =>
      let value := f x in
      let acc' := match acc with
                  | None => Some value
                  | Some m => if Qltb m value then Some value else Some m
                  end in
      d3_max_from f acc' l'
  end.

Definition d3_max {A : Type} (f : A -> Q) (l : list A) : option Q := d3_max_from f None l.

(** [x || d] on a number or [undefined]: [d] when [x] is falsy ([0] or
    [undefined]). *)
Definition or_default (x : option Q) (d : Q) : Q :=
  match x with
  | None => d
  | Some v => if Qeq_bool v 0 then d else v
  end.

(** [d3.scaleLinear().domain([d0, d1]).range([r0, r1])] applied to [v]:
    [normalize] then [interpolateNumber]; a collapsed domain maps to the
    middle. *)
Definition scaleLinear (d0 d1 r0 r1 v : Q) : Q :=
  let t := if Qeq_bool (d1 - d0) 0 then 0.5 else (v - d0) / (d1 - d0) in
  r0 * (1 - t) + r1 * t.

(** [height - MARGIN.top - MARGIN.bottom], the same margins in the three
    charts. *)
Definition chartInnerHeight (height : Q) : Q := height - 20 - 30.

(** [ThroughputChart]: [maxRps = d3.max(data, d => d.rps) || 2000] and the
    y-scale [domain([0, maxRps * 1.1]).range([innerHeight, 0])]. *)
Definition throughputDomainMax (data : list MetricDataPoint) : Q :=
  or_default (d3_max rps data) 2000 * 1.1.

Definition throughputYScale (data : list MetricDataPoint) (height : Q) : Q -> Q :=
  scaleLinear 0 (throughputDomainMax data) (chartInnerHeight height) 0.

(** [Math.max(d.p50, d.p95, d.p99)] *)
Definition maxPercentile (d : MetricDataPoint) : Q := Math_max (Math_max (p50 d) (p95 d)) (p99 d).

(** [LatencyChart]: [maxLatency = d3.max(data, d => Math.max(d.p50, d.p95,
    d.p99)) || 200] and the y-scale [domain([0, maxLatency * 1.1])]. *)
Definition latencyDomainMax (data : list MetricDataPoint) : Q :=
  or_default (d3_max maxPercentile data) 200 * 1.1.

Definition latencyYScale (data : list MetricDataPoint) (height : Q) : Q -> Q :=
  scaleLinear 0 (latencyDomainMax data) (chartInnerHeight height) 0.

Definition ERROR_THRESHOLD : Q := 1.

(** [ErrorRateChart]: [maxError = Math.max(d3.max(data, d => d.errorRate)
    || 5, ERROR_THRESHOLD * 1.5)] and the y-scale [domain([0, maxError])]. *)
Definition errorDomainMax (data : list MetricDataPoint) : Q :=
  Math_max (or_default (d3_max errorRate data) 5) (ERROR_THRESHOLD * 1.5).

Definition errorYScale (data : list MetricDataPoint) (height : Q) : Q -> Q :=
  scaleLinear 0 (errorDomainMax data) (chartInnerHeight height) 0.

Lemma d3_max_from_spec {A : Type} (f : A -> Q) acc l :
  match d3_max_from f acc l with
  | None => acc = None /\ l = []
  | Some m => Forall (fun x => f x <= m) l /\ (forall a, acc = Some a -> a <= m) /\
              (acc = Some m \/ exists x, In x l /\ f x = m)
  end.
Proof.
  revert acc. induction l as [|x l IH]; intro acc.
  - destruct acc as [m|]; [| split; reflexivity].
    split; [constructor | split; [intros a [= ->]; apply Qle_refl | left; reflexivity]].
  - cbn [d3_max_from].
    set (acc' := match acc with
                 | None => Some (f x)
                 | Some m => if Qltb m (f x) then Some (f x) else Some m
                 end).
    assert (Hx : exists v, acc' = Some v /\ f x <= v /\ (forall a, acc = Some a -> a <= v) /\
                           (v = f x \/ acc = Some v)).
    { unfold acc'. destruct acc as [m|].
      - destruct (Qltb m (f x)) eqn:E; qbool.
        + exists (f x). repeat split; [apply Qle_refl | intros a [= ->]; lra | left; reflexivity].
        + exists m. repeat split; [lra | intros a [= ->]; apply Qle_refl | right; reflexivity].
      - exists (f x). repeat split; [apply Qle_refl | discriminate | left; reflexivity]. }
    destruct Hx as (v & Ev & Hfx & Hacc & Hv).
    specialize (IH acc'). rewrite Ev in IH |- *.
    destruct (d3_max_from f (Some v) l) as [m|]; [| destruct IH; discriminate].
    destruct IH as (Hl & Hvm & Hin).
    specialize (Hvm v eq_refl).
    split; [constructor; [lra | exact Hl] | split].
    + intros a Ha. specialize (Hacc a Ha). lra.
    + destruct Hin as [[= <-] | (y & Hy & Ey)].
      * destruct Hv as [-> | ->]; [right; exists x; split; [left |]; reflexivity | left; reflexivity].
      * right. exists y. split; [right; exact Hy | exact Ey].
Qed.

(** Every value lies under [max || d], which is positive, when the values
    are non-negative and [d > 0]. *)
Lemma or_default_max_covers {A : Type} (f : A -> Q) (l : list A) (d : Q) :
  0 < d -> Forall (fun x => 0 <= f x) l ->
  0 < or_default (d3_max f l) d /\ Forall (fun x => f x <= or_default (d3_max f l) d) l.
Proof.
  intros Hd Hnn. unfold d3_max.
  assert (Hs := d3_max_from_spec f None l).
  destruct (d3_max_from f None l) as [m|]; cbn [or_default].
  - destruct Hs as (Hl & _ & [Hn | (x & Hx & Ex)]); [discriminate|].
    assert (Hm : 0 <= m) by (rewrite <- Ex; rewrite Forall_forall in Hnn; apply Hnn, Hx).
    destruct (Qeq_bool m 0) eqn:E; qbool.
    + split; [exact Hd|]. eapply Forall_impl; [| exact Hl]. intros a Ha; cbn in Ha. lra.
    + split; [| exact Hl]. apply Qnot_le_lt. intro Hle. apply E. lra.
  - destruct Hs as [_ ->]. split; [exact Hd | constructor].
Qed.

(** [scaleLinear 0 top h 0] maps [[0, top]] into [[0, h]]. *)
Lemma scaleLinear_in_range top h v :
  0 < top -> 0 <= h -> 0 <= v <= top ->
  0 <= scaleLinear 0 top h 0 v <= h.
Proof.
  intros Ht Hh Hv. unfold scaleLinear.
  destruct (Qeq_bool (top - 0) 0) eqn:E; qbool; [lra|].
  assert (Hi : 0 < / top) by (apply Qinv_lt_0_compat, Ht).
  assert (Hi1 : top * / top == 1) by (apply Qmult_inv_r; lra).
  assert (Et : (v - 0) / (top - 0) == v * / top)
    by (unfold Qdiv; setoid_replace (top - 0) with top by ring; ring).
  assert (Ht1 : 0 <= v * / top <= 1) by (split; nra).
  set (t := (v - 0) / (top - 0)) in *.
  set (s := v * / top) in *. split; nra.
Qed.

Lemma Math_max_ge_both a b c : c <= a -> c <= Math_max a b.
Proof. intro H. eapply Qle_trans; [exact H | apply Math_max_ge_l]. Qed.

(** X7: [ThroughputChart] on non-negative throughputs: the y-domain
    [[0, maxRps * 1.1]] is non-degenerate, it is [[0, 2200]] on empty data,
    and every sample's [rps] is drawn inside the plot, between [0] and
    [innerHeight]. *)
Theorem throughputYScale_in_plot (data : list MetricDataPoint) (height : Q) :
  50 <= height -> Forall (fun d => 0 <= rps d) data ->
  0 < throughputDomainMax data /\
  (data = [] -> throughputDomainMax data == 2200) /\
  Forall (fun d => 0 <= throughputYScale data height (rps d) <= chartInnerHeight height) data.
Proof.
  intros Hh Hnn.
  destruct (or_default_max_covers rps data 2000 ltac:(lra) Hnn) as [Hpos Hle].
  unfold throughputYScale, throughputDomainMax.
  set (m := or_default (d3_max rps data) 2000) in *.
  split; [lra | split; [intros ->; reflexivity |]].
  rewrite Forall_forall in Hle, Hnn |- *. intros d Hd.
  apply scaleLinear_in_range; [lra | unfold chartInnerHeight; lra |].
  specialize (Hle d Hd). specialize (Hnn d Hd). lra.
Qed.

(** X8: [LatencyChart] on non-negative percentiles: the y-domain
    [[0, maxLatency * 1.1]] is non-degenerate, it is [[0, 220]] on empty
    data, and the [p50], [p95] and [p99] of every sample are drawn inside the
    plot, between [0] and [innerHeight]. *)
Theorem latencyYScale_in_plot (data : list MetricDataPoint) (height : Q) :
  50 <= height -> Forall (fun d => 0 <= p50 d /\ 0 <= p95 d /\ 0 <= p99 d) data ->
  0 < latencyDomainMax data /\
  (data = [] -> latencyDomainMax data == 220) /\
  Forall (fun d => Forall (fun v => 0 <= latencyYScale data height v <= chartInnerHeight height)
                          [p50 d; p95 d; p99 d]) data.
Proof.
  intros Hh Hnn.
  assert (Hnn' : Forall (fun d => 0 <= maxPercentile d) data).
  { eapply Forall_impl; [| exact Hnn]. intros d (H1 & _ & _).
    unfold maxPercentile. apply Math_max_ge_both, Math_max_ge_both, H1. }
  destruct (or_default_max_covers maxPercentile data 200 ltac:(lra) Hnn') as [Hpos Hle].
  unfold latencyYScale, latencyDomainMax.
  set (m := or_default (d3_max maxPercentile data) 200) in *.
  split; [lra | split; [intros ->; reflexivity |]].
  rewrite Forall_forall in Hle, Hnn |- *. intros d Hd.
  specialize (Hle d Hd). specialize (Hnn d Hd). destruct Hnn as (H1 & H2 & H3).
  unfold maxPercentile in Hle.
  assert (Hm1 := Math_max_ge_l (p50 d) (p95 d)).
  assert (Hm2 := Math_max_ge_r (p50 d) (p95 d)).
  assert (Hm3 := Math_max_ge_l (Math_max (p50 d) (p95 d)) (p99 d)).
  assert (Hm4 := Math_max_ge_r (Math_max (p50 d) (p95 d)) (p99 d)).
  repeat constructor; apply scaleLinear_in_range; unfold chartInnerHeight; lra.
Qed.

(** X9: [ErrorRateChart] on non-negative error rates: the y-domain top
    [maxError] is at least [ERROR_THRESHOLD * 1.5 = 1.5] (it is 5 on empty
    data), every sample's error rate is drawn inside the plot, and the
    threshold line [yScale(ERROR_THRESHOLD)] lies inside the plot, in the
    lower two thirds: between [innerHeight / 3] and [innerHeight] (excluded,
    when [innerHeight > 0]). *)
Theorem errorYScale_in_plot (data : list MetricDataPoint) (height : Q) :
  50 < height -> Forall (fun d => 0 <= errorRate d) data ->
  1.5 <= errorDomainMax data /\
  (data = [] -> errorDomainMax data == 5) /\
  Forall (fun d => 0 <= errorYScale data height (errorRate d) <= chartInnerHeight height) data /\
  chartInnerHeight height / 3 <= errorYScale data height ERROR_THRESHOLD < chartInnerHeight height.
Proof.
  intros Hh Hnn.
  destruct (or_default_max_covers errorRate data 5 ltac:(lra) Hnn) as [Hpos Hle].
  unfold errorYScale, errorDomainMax.
  set (m := or_default (d3_max errorRate data) 5) in *.
  assert (HM := Math_max_ge_l m (ERROR_THRESHOLD * 1.5)).
  assert (HT := Math_max_ge_r m (ERROR_THRESHOLD * 1.5)).
  unfold ERROR_THRESHOLD in *.
  set (M := Math_max m (1 * 1.5)) in *.
  split; [lra | split; [| split]].
  - intros ->. unfold M, m. cbn. unfold Math_max. reflexivity.
  - rewrite Forall_forall in Hle, Hnn |- *. intros d Hd.
    apply scaleLinear_in_range; [lra | unfold chartInnerHeight; lra |].
    specialize (Hle d Hd). specialize (Hnn d Hd). lra.
  - unfold scaleLinear, chartInnerHeight.
    destruct (Qeq_bool (M - 0) 0) eqn:E; qbool; [lra|].
    assert (Hi : 0 < / M) by (apply Qinv_lt_0_compat; lra).
    assert (Hi1 : M * / M == 1) by (apply Qmult_inv_r; lra).
    assert (Et : (1 - 0) / (M - 0) == / M)
      by (unfold Qdiv; setoid_replace (M - 0) with M by ring; ring).
    assert (Hb : / M <= 2 # 3) by nra.
    set (t := (1 - 0) / (M - 0)) in *. set (s := / M) in *.
    unfold Qdiv at 1. change (/ 3) with (1 # 3).
    rewrite Et. split; nra.
Qed.

(** X10: a sample can be flagged above [ERROR_THRESHOLD] by the error-rate
    tooltip only on a spike or recovery-plateau tick: whatever the generator
    state, after one call either the cooldown is 15 (a spike fired), or it
    is in [1..4] (the plateau), or the error rate is the base rate, at most
    0.3 and not above the threshold. *)
Theorem generateDataPoint_threshold_only_on_spikes (this : MetricsGenerator) (ts : Q) (rng : Rng) :
  valid_draws rng ->
  let '(p, g, _) := generateDataPoint this ts rng in
  errorSpikeCooldown g == 15 \/ (0 < errorSpikeCooldown g < 5) \/
  (errorRate p <= 0.3 /\ Qltb ERROR_THRESHOLD (errorRate p) = false).
Proof.
  intro Hv. unfold generateDataPoint. cbn.
  draw_bounds Hv.
  destruct (latencyPercentiles _ _ _ _) as [[a b] c].
  clamps. cbn. split_ifs.
  all: draw_bounds Hv.
  all: first
    [ left; reflexivity
    | right; left; split; assumption
    | right; right;
      match goal with
      | |- Math_round ?y / 100 <= _ /\ _ =>
          assert (Hb : Math_round y / 100 <= 0.3)
            by (eapply Qle_trans; [apply (round_div_le 30)|]; unfold inject_Z; qdiv; lra)
      end;
      split; [exact Hb | apply Qltb_false; unfold ERROR_THRESHOLD; lra] ].
Qed.

(** ** Node ticks *)

(** The stored health is [Math.round] of a value of [[0,100]]: an integer of
    [[0,100]]. *)
Definition int_in (lo hi x : Q) : Prop :=
  exists z : Z, x = inject_Z z /\ lo <= inject_Z z <= hi.

Lemma Math_round_int_in lo hi x :
  inject_Z lo <= x <= inject_Z hi -> int_in (inject_Z lo) (inject_Z hi) (Math_round x).
Proof.
  intros [H1 H2]. exists (Qfloor (x + 0.5)). split; [reflexivity|].
  split; [apply Math_round_ge | apply Math_round_le]; assumption.
Qed.

Lemma map_rng_Forall {A B : Type} (P : B -> Prop) (f : A -> Rng -> B * Rng) l rng :
  (forall x r, P (fst (f x r))) -> Forall P (fst (map_rng f l rng)).
Proof.
  intro Hf. revert rng. induction l as [|x l IH]; intro rng; cbn [map_rng]; [constructor|].
  specialize (Hf x rng). destruct (f x rng) as [y rng'].
  specialize (IH rng'). destruct (map_rng f l rng') as [ys rng'']. cbn in *.
  constructor; assumption.
Qed.

Definition node_in_range (n : NodeMetric) : Prop :=
  int_in 0 100 (health n) /\ 0 <= load n <= 100.

Lemma updateNode_in_range node rng : node_in_range (fst (updateNode node rng)).
Proof.
  unfold updateNode. cbn.
  destruct (status node); cbn; split_ifs.
  all: clamps.
  all: split; [apply (Math_round_int_in 0 100); exact Hclamp0 | exact Hclamp].
Qed.

(** X11: whatever the population and whatever the draws, after a tick of
    [updateNodeMetrics] every node's stored health is an integer of
    [[0,100]] and its load lies in [[0,100]]. *)
Theorem updateNodeMetrics_in_range (nodes : list NodeMetric) (rng : Rng) :
  Forall node_in_range (fst (updateNodeMetrics nodes rng)).
Proof. apply map_rng_Forall. intros; apply updateNode_in_range. Qed.

(** The classification of a value against that of its rounding. *)
Lemma determineStatus_round h :
  determineStatus h = determineStatus (Math_round h) \/
  (Math_round h == 80 /\ determineStatus h = degraded) \/
  (Math_round h == 40 /\ determineStatus h = down).
Proof.
  destruct (Qlt_le_dec h 80) as [H80|H80].
  - destruct (Qlt_le_dec h 40) as [H40|H40].
    + assert (Hr : Math_round h <= inject_Z 40) by (apply Math_round_le; unfold inject_Z; lra).
      unfold inject_Z in Hr. rewrite (determineStatus_down h H40).
      destruct (Qlt_le_dec (Math_round h) 40) as [Hl|Hl].
      * left. rewrite determineStatus_down by exact Hl. reflexivity.
      * right; right. split; [apply Qle_antisym; assumption | reflexivity].
    + assert (Hr : Math_round h <= inject_Z 80) by (apply Math_round_le; unfold inject_Z; lra).
      assert (Hr' : inject_Z 40 <= Math_round h) by (apply Math_round_ge; unfold inject_Z; lra).
      unfold inject_Z in Hr, Hr'. rewrite (determineStatus_degraded h (conj H40 H80)).
      destruct (Qlt_le_dec (Math_round h) 80) as [Hl|Hl].
      * left. rewrite determineStatus_degraded by (split; assumption). reflexivity.
      * right; left. split; [apply Qle_antisym; assumption | reflexivity].
  - assert (Hr' : inject_Z 80 <= Math_round h) by (apply Math_round_ge; unfold inject_Z; lra).
    unfold inject_Z in Hr'. left.
    rewrite !determineStatus_healthy by assumption. reflexivity.
Qed.

Definition status_matches_health (n : NodeMetric) : Prop :=
  status n = determineStatus (health n) \/
  (health n == 80 /\ status n = degraded) \/ (health n == 40 /\ status n = down).

Lemma updateNode_status node rng : status_matches_health (fst (updateNode node rng)).
Proof.
  unfold updateNode. cbn.
  destruct (status node); cbn; split_ifs.
  all: apply determineStatus_round.
Qed.

(** X12: whatever the population and whatever the draws, after a tick every
    node's stored status is the classification of its stored health, except
    for a stored health of exactly 80, classified [degraded], or exactly 40,
    classified [down]: the status is computed before rounding. *)
Theorem updateNodeMetrics_status_lag (nodes : list NodeMetric) (rng : Rng) :
  Forall status_matches_health (fst (updateNodeMetrics nodes rng)).
Proof. apply map_rng_Forall. intros; apply updateNode_status. Qed.

Lemma Math_round_ge_half z x : inject_Z z - 0.5 <= x -> inject_Z z <= Math_round x.
Proof.
  intro H. unfold Math_round. rewrite <- Zle_Qle.
  rewrite <- (Qfloor_Z z). apply Qfloor_resp_le. lra.
Qed.

(** Clamping to [[0,100]] keeps a value within [k] of a point of [[0,100]]. *)
Lemma clamp_near (z x k : Q) :
  0 <= z <= 100 -> 0 <= k -> z - k <= x <= z + k ->
  z - k <= Math_max 0 (Math_min 100 x) <= z + k.
Proof.
  intros Hz Hk Hx. split.
  - eapply Qle_trans; [| apply Math_max_ge_r]. apply Math_min_glb; lra.
  - apply Math_max_lub; [lra |]. eapply Qle_trans; [apply Math_min_le_r | lra].
Qed.

Lemma Qabs_draw_bound r : 0 <= r < 1 -> 0 <= Qabs ((r - 0.5) * 3) <= 1.5.
Proof.
  intro Hr. split; [apply Qabs_nonneg |]. apply Qabs_Qle_condition. lra.
Qed.

Lemma updateNode_draws node rng : draws (snd (updateNode node rng)) = draws rng.
Proof. unfold updateNode. cbn. destruct (status node); cbn; split_ifs; reflexivity. Qed.

Lemma round_within (z k : Z) x :
  inject_Z z - inject_Z k <= x <= inject_Z z + inject_Z k ->
  inject_Z z - inject_Z k <= Math_round x <= inject_Z z + inject_Z k.
Proof.
  intros [H1 H2].
  assert (E1 : inject_Z (z - k) == inject_Z z - inject_Z k)
    by (unfold Z.sub; rewrite inject_Z_plus, inject_Z_opp; ring).
  assert (E2 : inject_Z (z + k) == inject_Z z + inject_Z k) by (rewrite inject_Z_plus; ring).
  split.
  - rewrite <- E1. apply Math_round_ge. rewrite E1. exact H1.
  - rewrite <- E2. apply Math_round_le. rewrite E2. exact H2.
Qed.

Lemma updateNode_step node rng (z : Z) :
  valid_draws rng -> health node = inject_Z z -> 0 <= inject_Z z <= 100 ->
  health node - 3 <= health (fst (updateNode node rng)) <= health node + 3.
Proof.
  intros Hv Hz Hr. unfold updateNode. cbn. rewrite Hz.
  assert (Ha := Qabs_draw_bound _ (Hv (pos rng))).
  unfold Math_abs.
  destruct (status node); cbn; split_ifs.
  all: match goal with
       | |- _ <= Math_round (Math_max 0 (Math_min 100 ?x)) <= _ =>
           assert (Hc := clamp_near (inject_Z z) x 3 Hr ltac:(lra) ltac:(draw_bounds Hv; lra))
       end.
  all: change 3 with (inject_Z 3); apply round_within; exact Hc.
Qed.

(** X13: on a population whose stored healths are integers of [[0,100]]
    and for draws in [[0,1)], one tick of [updateNodeMetrics] moves each
    node's stored health by at most 3 points, up or down. *)
Theorem updateNodeMetrics_health_step (nodes : list NodeMetric) (rng : Rng) :
  valid_draws rng -> Forall (fun n => int_in 0 100 (health n)) nodes ->
  Forall2 (fun n n' => health n - 3 <= health n' <= health n + 3)
          nodes (fst (updateNodeMetrics nodes rng)).
Proof.
  unfold updateNodeMetrics. revert rng.
  induction nodes as [|n nodes IH]; intros rng Hv Hn; cbn [map_rng]; [constructor|].
  inversion Hn as [|? ? (z & Hz & Hr) Hns]; subst.
  assert (Hs := updateNode_step n rng z Hv Hz Hr).
  assert (Hd := updateNode_draws n rng).
  destruct (updateNode n rng) as [n' rng'].
  assert (Hv' : valid_draws rng') by (unfold valid_draws in *; cbn in Hd; rewrite Hd; exact Hv).
  specialize (IH rng' Hv' Hns).
  destruct (map_rng updateNode nodes rng') as [ys rng'']. cbn in *.
  constructor; assumption.
Qed.

(** X14: a [degraded] node with integer health in [[0,100]], on a tick
    whose 0.1 decline roll succeeds, gets the delta [-|base delta| * 1.5]:
    its stored health never rises and falls by at most 2 points. *)
Theorem updateNode_degraded_decline (node : NodeMetric) (rng : Rng) (z : Z) :
  valid_draws rng ->
  status node = degraded ->
  health node == inject_Z z -> (0 <= z <= 100)%Z ->
  draws rng (1 + pos rng) < 0.1 ->
  let '(node', _) := updateNode node rng in
  health node' = Math_round (Math_max 0 (Math_min 100
                   (health node + (- Math_abs ((draws rng (pos rng) - 0.5) * 3)) * 1.5))) /\
  health node - 2 <= health node' <= health node.
Proof.
  intros Hv Hs Hz Hzr Hroll. unfold updateNode. cbn. rewrite Hs. cbn. cbn in Hroll.
  apply Qltb_true in Hroll. rewrite Hroll. cbn.
  split; [reflexivity |].
  assert (Ha := Qabs_draw_bound _ (Hv (pos rng))). unfold Math_abs.
  assert (Hzq : 0 <= inject_Z z <= 100).
  { change 0 with (inject_Z 0). change 100 with (inject_Z 100). rewrite <- !Zle_Qle. lia. }
  assert (Hc := clamp_near (inject_Z z) (health node + - Qabs ((draws rng (pos rng) - 0.5) * 3) * 1.5)
                  2.25 Hzq ltac:(lra) ltac:(lra)).
  set (x := Math_max 0 (Math_min 100 _)) in *.
  assert (Hx : x <= inject_Z z).
  { unfold x. apply Math_max_lub; [lra |]. eapply Qle_trans; [apply Math_min_le_r | lra]. }
  split.
  - assert (E : inject_Z (z - 2) == inject_Z z - 2)
      by (unfold Z.sub; rewrite inject_Z_plus; reflexivity).
    rewrite Hz, <- E. apply Math_round_ge_half. rewrite E. lra.
  - rewrite Hz. apply Math_round_le, Hx.
Qed.

(** A node as [generateNodeMetrics] creates it: integer load of [[30,70]]
    and integer health in the band of its status. *)
Definition initial_node_ok (n : NodeMetric) : Prop :=
  int_in 30 70 (load n) /\
  match status n with
  | healthy => int_in 85 100 (health n)
  | degraded => int_in 50 75 (health n)
  | down => int_in 15 35 (health n)
  end.

Lemma generateNode_ok i rng : valid_draws rng -> initial_node_ok (fst (generateNode i rng)).
Proof.
  intro Hv. unfold generateNode.
  generalize ("node-" ++ padStart 2 (String_of_nat (i + 1)))%string as id. intro id.
  cbn. draw_bounds Hv. split_ifs; draw_bounds Hv.
  all: split; [apply (Math_round_int_in 30 70); unfold inject_Z; lra |].
  - rewrite determineStatus_healthy by lra.
    apply (Math_round_int_in 85 100); unfold inject_Z; lra.
  - rewrite determineStatus_degraded by lra.
    apply (Math_round_int_in 50 75); unfold inject_Z; lra.
  - rewrite determineStatus_down by lra.
    apply (Math_round_int_in 15 35); unfold inject_Z; lra.
Qed.

(** X15: for draws in [[0,1)], every node of [generateNodeMetrics] has an
    integer load of [[30,70]] and an integer health of [[85,100]] if
    [healthy], [[50,75]] if [degraded] and [[15,35]] if [down]. *)
Theorem generateNodeMetrics_ranges (rng : Rng) :
  valid_draws rng -> Forall initial_node_ok (fst (generateNodeMetrics rng)).
Proof.
  intro Hv. unfold generateNodeMetrics.
  apply Array_from_at_Forall; [| apply generateNode_draws | exact Hv].
  intros j r Hr. apply generateNode_ok, Hr.
Qed.

(** [k] ticks of the node interval: [setNodeMetrics(prev => updateNodeMetrics(prev))]. *)
Fixpoint nodeTicks (k : nat) (nodes : list NodeMetric) (rng : Rng) : list NodeMetric * Rng :=
  match k with
  | O => (nodes, rng)
  | S k' => let '(nodes', rng') := updateNodeMetrics nodes rng in nodeTicks k' nodes' rng'
  end.

(** The population shown after [initializeData] ([generateNodeMetrics()])
    and [k] node ticks. *)
Definition nodesAfter (k : nat) (rng : Rng) : list NodeMetric * Rng :=
  let '(nodes, rng') := generateNodeMetrics rng in nodeTicks k nodes rng'.

Fixpoint nodupb (l : list string) : bool :=
  match l with
  | [] => true
  | x :: l' => negb (existsb (String.eqb x) l') && nodupb l'
  end.

Lemma nodupb_NoDup l : nodupb l = true -> NoDup l.
Proof.
  induction l as [|x l IH]; intro H; [constructor|].
  cbn in H. apply andb_prop in H. destruct H as [Hx Hl].
  constructor; [| apply IH, Hl].
  intro Hin. apply Bool.negb_true_iff in Hx.
  assert (existsb (String.eqb x) l = true) by (apply existsb_exists; exists x; split;
    [exact Hin | apply String.eqb_refl]).
  congruence.
Qed.

Definition node_invariant (n : NodeMetric) : Prop :=
  node_in_range n /\ status_matches_health n.

Lemma nodeTicks_frame k nodes rng :
  let nodes' := fst (nodeTicks k nodes rng) in
  map nodeId nodes' = map nodeId nodes /\ map region nodes' = map region nodes /\
  List.length nodes' = List.length nodes.
Proof.
  revert nodes rng. induction k as [|k IH]; intros nodes rng; [repeat split|].
  cbn [nodeTicks].
  destruct (updateNodeMetrics_frame nodes rng) as (H1 & H2 & H3).
  destruct (updateNodeMetrics nodes rng) as [nodes' rng']. cbn [fst] in *.
  destruct (IH nodes' rng') as (I1 & I2 & I3).
  rewrite I1, I2, I3. repeat split; assumption.
Qed.

Lemma nodeTicks_invariant k nodes rng :
  Forall node_invariant nodes -> Forall node_invariant (fst (nodeTicks k nodes rng)).
Proof.
  revert nodes rng. induction k as [|k IH]; intros nodes rng Hn; [exact Hn|].
  cbn [nodeTicks].
  assert (Hr : Forall node_invariant (fst (updateNodeMetrics nodes rng))).
  { apply map_rng_Forall. intros x r. split; [apply updateNode_in_range | apply updateNode_status]. }
  destruct (updateNodeMetrics nodes rng) as [nodes' rng']. apply IH, Hr.
Qed.

Lemma int_in_widen lo hi lo' hi' x : lo' <= lo -> hi <= hi' -> int_in lo hi x -> int_in lo' hi' x.
Proof. intros H1 H2 (z & Hz & Hr). exists z. split; [exact Hz | lra]. Qed.

(** X16: whatever the draws in [[0,1)] and the number [k] of node ticks,
    the population on screen has 24 nodes with pairwise distinct ids (the
    key of the heat map's data join), node [i] stays in region
    [REGIONS[i mod 4]], every stored health is an integer of [[0,100]] and
    every load lies in [[0,100]], and every status is the classification of
    the stored health except at a stored health of exactly 80 or 40. *)
Theorem nodesAfter_population (k : nat) (rng : Rng) :
  valid_draws rng ->
  let nodes := fst (nodesAfter k rng) in
  List.length nodes = 24%nat /\ NoDup (map nodeId nodes) /\
  map region nodes = map (fun i => nth (i mod 4) REGIONS ""%string) (seq 0 24) /\
  Forall (fun n => int_in 0 100 (health n) /\ 0 <= load n <= 100) nodes /\
  Forall status_matches_health nodes.
Proof.
  intros Hv nodes. unfold nodes, nodesAfter, generateNodeMetrics.
  assert (Hid := Array_from_at_map nodeId (fun i => ("node-" ++ padStart 2 (String_of_nat (i + 1)))%string)
                   generateNode 0 NODE_COUNT rng (fun j r => proj1 (generateNode_fields j r))).
  assert (Hreg := Array_from_at_map region (fun i => nth (i mod 4) REGIONS ""%string)
                    generateNode 0 NODE_COUNT rng (fun j r => proj2 (generateNode_fields j r))).
  assert (Hinv : Forall node_invariant (fst (Array_from_at 0 NODE_COUNT generateNode rng))).
  { apply Array_from_at_Forall; [| apply generateNode_draws | exact Hv].
    intros j r Hr. split.
    - destruct (generateNode_ok j r Hr) as [Hl Hh]. split.
      + destruct (status (fst (generateNode j r))).
        all: eapply int_in_widen; [| | exact Hh]; lra.
      + destruct Hl as (z & -> & Hz). lra.
    - left. apply generateNode_status, Hr. }
  destruct (Array_from_at 0 NODE_COUNT generateNode rng) as [nodes0 rng0]. cbn [fst] in *.
  destruct (nodeTicks_frame k nodes0 rng0) as (F1 & F2 & F3).
  assert (Hinv' := nodeTicks_invariant k nodes0 rng0 Hinv).
  split; [| split; [| split; [| split]]].
  - rewrite F3, <- (length_map nodeId), Hid. reflexivity.
  - rewrite F1, Hid. apply nodupb_NoDup. vm_compute. reflexivity.
  - rewrite F2, Hreg. reflexivity.
  - eapply Forall_impl; [| exact Hinv']. intros n [[Hh Hl] _]. split; assumption.
  - eapply Forall_impl; [| exact Hinv']. intros n [_ Hs]. exact Hs.
Qed.

(** ** Order of the chart window *)

Definition TsLt (a b : MetricDataPoint) : Prop := timestamp a < timestamp b.

Lemma Sorted_map_timestamp l : Sorted Qlt (map timestamp l) <-> Sorted TsLt l.
Proof.
  induction l as [|x l IH]; cbn [map]; [split; constructor|].
  split; intro H; apply Sorted_inv in H; destruct H as [Hs Hh]; constructor.
  - apply IH, Hs.
  - destruct l as [|y l]; constructor. inversion Hh. assumption.
  - apply IH, Hs.
  - destruct l as [|y l]; constructor. inversion Hh. assumption.
Qed.

Lemma Sorted_snoc l a :
  Sorted TsLt l -> (forall x, In x l -> TsLt x a) -> Sorted TsLt (l ++ [a]).
Proof.
  induction l as [|x l IH]; intros Hs Hlt; cbn; [repeat constructor|].
  apply Sorted_inv in Hs. destruct Hs as [Hs Hh]. constructor.
  - apply IH; [exact Hs | intros y Hy; apply Hlt; right; exact Hy].
  - destruct l as [|y l]; cbn; constructor.
    + apply Hlt. left. reflexivity.
    + inversion Hh. assumption.
Qed.

Lemma Sorted_skipn {A : Type} (R : A -> A -> Prop) k l : Sorted R l -> Sorted R (skipn k l).
Proof.
  revert l. induction k as [|k IH]; intros l Hs; [exact Hs|].
  destruct l as [|x l]; [constructor|]. cbn. apply IH. apply Sorted_inv in Hs. apply Hs.
Qed.

Lemma In_skipn {A : Type} k (l : list A) x : In x (skipn k l) -> In x l.
Proof.
  revert l. induction k as [|k IH]; intros l H; [exact H|].
  destruct l as [|y l]; [destruct H|]. right. apply IH, H.
Qed.

Lemma liveWindow_sorted minutes tss window this rng :
  Sorted TsLt window -> StronglySorted Qlt tss ->
  (forall x t, In x window -> In t tss -> timestamp x < t) ->
  Sorted TsLt (fst (fst (liveWindow minutes tss window this rng))).
Proof.
  revert window this rng.
  induction tss as [|t tss IH]; intros window this rng Hw Ht Hlt; [exact Hw|].
  cbn [liveWindow].
  assert (Hts := generateDataPoint_timestamp this t rng).
  destruct (generateDataPoint this t rng) as [[p this'] rng']. cbn [fst] in Hts.
  apply StronglySorted_inv in Ht. destruct Ht as [Ht Hft].
  rewrite Forall_forall in Hft.
  assert (Happ : Sorted TsLt (window ++ [p])).
  { apply Sorted_snoc; [exact Hw |]. intros x Hx. unfold TsLt. rewrite Hts.
    apply Hlt; [exact Hx | left; reflexivity]. }
  apply IH; [| exact Ht |].
  - unfold appendSample, Array_slice. apply Sorted_skipn, Happ.
  - intros x t' Hx Ht'. unfold appendSample, Array_slice in Hx.
    apply In_skipn, in_app_or in Hx. specialize (Hft t' Ht').
    destruct Hx as [Hx | [<- | []]].
    + specialize (Hlt x t Hx (or_introl eq_refl)). lra.
    + rewrite Hts. exact Hft.
Qed.

(** X17: after a range change at time [now] and live ticks at strictly
    increasing times no earlier than [now], the chart data is sorted by
    strictly increasing timestamp, the order the tooltip's
    [d3.bisector(d => d.timestamp).left] relies on. *)
Theorem rangeThenLive_sorted (this : MetricsGenerator) (now minutes : Q) (tss : list Q) (rng : Rng) :
  Sorted Qlt tss -> Forall (fun t => now <= t) tss ->
  Sorted Qlt (map timestamp (fst (fst (rangeThenLive this now minutes tss rng)))).
Proof.
  intros Hs Hnow. unfold rangeThenLive, generateHistoricalData.
  set (P := Qfloor (minutes * 60 * 1000 / UPDATE_INTERVAL)).
  assert (Hts := historical_loop_timestamps this now UPDATE_INTERVAL (inject_Z P) 0 (Z.to_nat P) rng).
  destruct (historical_loop this now UPDATE_INTERVAL (inject_Z P) 0 (Z.to_nat P) rng)
    as [[hist this'] rng'].
  apply Sorted_map_timestamp. apply liveWindow_sorted.
  - apply Sorted_map_timestamp. rewrite Hts. apply seq_timestamps_sorted.
    unfold UPDATE_INTERVAL. lra.
  - apply Sorted_StronglySorted; [| exact Hs]. intros a b c; apply Qlt_trans.
  - intros x t Hx Ht. rewrite Forall_forall in Hnow. specialize (Hnow t Ht).
    assert (Hm : In (timestamp x) (map timestamp hist)) by (apply in_map, Hx).
    rewrite Hts in Hm. apply in_map_iff in Hm. destruct Hm as (j & Ej & Hj).
    apply in_seq in Hj.
    assert (Hjp : inject_Z (Z.of_nat j) + 1 <= inject_Z P).
    { rewrite <- inject_Z_of_nat_S. rewrite <- Zle_Qle. lia. }
    rewrite <- Ej. unfold UPDATE_INTERVAL. lra.
Qed.

(** ** Ranges of a generated sample *)

(** X18: for draws in [[0,1)] and whatever the generator state, a sample's
    throughput lies in [[500,1660]], its [p50] in [[37.5,132.5]] and its
    error rate in [[0,5]]: the throughput chart's fallback [2000] is used
    only on empty data. *)
Theorem generateDataPoint_ranges (this : MetricsGenerator) (ts : Q) (rng : Rng) :
  valid_draws rng ->
  let '(p, _, _) := generateDataPoint this ts rng in
  500 <= rps p <= 1660 /\ 37.5 <= p50 p <= 132.5 /\ 0 <= errorRate p <= 5.
Proof.
  intro Hv. unfold generateDataPoint. cbn.
  draw_bounds Hv.
  unfold latencyPercentiles. cbn.
  clamps. cbn. split_ifs.
  all: draw_bounds Hv.
  all: match goal with
       | |- context [Math_max 0 ?x] =>
           assert (Hx : 500 <= x <= 1660) by (qdiv; lra);
           rewrite (Math_max_r_eq 0 x) by lra
       end.
  all: match goal with
       | |- context [Math_max 5 ?x] =>
           assert (Hy : 37.5 <= x <= 132.5) by (qdiv; lra);
           rewrite (Math_max_r_eq 5 x) by lra
       end.
  all: split; [split; [apply (Math_round_ge 500) | apply (Math_round_le 1660)];
               unfold inject_Z; lra |].
  all: split; [split; [eapply Qle_trans; [| apply (round_div_ge 375)]
                      | eapply Qle_trans; [apply (round_div_le 1325) |]];
               unfold inject_Z; qdiv; lra |].
  all: split; [eapply Qle_trans; [| apply (round_div_ge 0)]
              | eapply Qle_trans; [apply (round_div_le 500) |]];
       unfold inject_Z; qdiv; lra.
Qed.

(** ** [getHealthStatus] *)

Definition getHealthStatus (health : Q) : NodeHealthStatus :=
  if Qle_bool 80 health then healthy
  else if Qle_bool 40 health then degraded
  else down.

(** The severity rank of a status: [healthy < degraded < down]. *)
Definition status_rank (s : NodeHealthStatus) : nat :=
  match s with healthy => 0 | degraded => 1 | down => 2 end.

(** X19: [getHealthStatus] is monotone: a higher health never gets a more
    severe status. *)
Theorem getHealthStatus_monotone (h1 h2 : Q) :
  h1 <= h2 -> (status_rank (getHealthStatus h2) <= status_rank (getHealthStatus h1))%nat.
Proof.
  intro H. unfold getHealthStatus.
  destruct (Qle_bool 80 h1) eqn:E1, (Qle_bool 80 h2) eqn:E2,
           (Qle_bool 40 h1) eqn:E3, (Qle_bool 40 h2) eqn:E4; qbool; cbn; lia || lra.
Qed.

(** ** Witnesses: the hypotheses of the properties hold at concrete inputs *)

(** The first sample of the generator on the all-[0.5] draws. *)
Definition sample0 : MetricDataPoint := fst (fst (generateDataPoint new_MetricsGenerator 0 half_rng)).

Lemma appendSample_window_witness :
  (1 <= Qfloor (5 * 60 * 1000 / UPDATE_INTERVAL))%Z /\
  (let w := appendSample 5 sample0 [] in
   Z.of_nat (List.length w) =
     Z.min (Z.of_nat (List.length (@nil MetricDataPoint)) + 1) (Qfloor (5 * 60 * 1000 / UPDATE_INTERVAL)) /\
   (exists dropped, [] ++ [sample0] = dropped ++ w) /\
   (exists kept, w = kept ++ [sample0])).
Proof.
  assert (H : (1 <= Qfloor (5 * 60 * 1000 / UPDATE_INTERVAL))%Z) by (vm_compute; discriminate).
  split; [exact H |]. apply (appendSample_window 5 sample0 [] H).
Defined.

Lemma appendSample_zero_window_witness :
  0 <= 0 /\ 0 < 1 # 30 /\ appendSample 0 sample0 [sample0] = [sample0] ++ [sample0].
Proof.
  assert (H0 : 0 <= 0) by lra. assert (H1 : 0 < 1 # 30) by lra.
  split; [exact H0 | split; [exact H1 |]].
  apply (appendSample_zero_window 0 sample0 [sample0] H0 H1).
Defined.

Lemma rangeThenLive_length_witness :
  (1 <= Qfloor (5 * 60 * 1000 / UPDATE_INTERVAL))%Z /\
  Z.of_nat (List.length (fst (fst (rangeThenLive new_MetricsGenerator 1000000 5 [1002000] half_rng)))) =
    Qfloor (5 * 60 * 1000 / UPDATE_INTERVAL).
Proof.
  assert (H : (1 <= Qfloor (5 * 60 * 1000 / UPDATE_INTERVAL))%Z) by (vm_compute; discriminate).
  split; [exact H |]. apply (rangeThenLive_length new_MetricsGenerator 1000000 5 [1002000] half_rng H).
Defined.

Lemma heatMap_cells_tile_witness :
  180 < 1200 /\ 60 < 400 /\
  (let L := heatMapLayout 24 1200 400 in
   (forall i, (i < 24)%nat ->
      let '(x, y) := cellTranslate L i in
      0 <= x /\ x + cellWidth L <= innerWidth L /\
      0 <= y /\ y + cellHeight L <= innerHeight L) /\
   (forall i j, (i < 24)%nat -> (j < 24)%nat ->
      fst (cellTranslate L i) == fst (cellTranslate L j) ->
      snd (cellTranslate L i) == snd (cellTranslate L j) -> i = j)).
Proof.
  assert (Hw : 180 < 1200) by lra. assert (Hh : 60 < 400) by lra.
  split; [exact Hw | split; [exact Hh |]].
  apply (heatMap_cells_tile 24 1200 400 Hw Hh).
Defined.

Lemma throughputYScale_in_plot_witness :
  50 <= 250 /\ Forall (fun d => 0 <= rps d) [sample0] /\
  (0 < throughputDomainMax [sample0] /\
   ([sample0] = [] -> throughputDomainMax [sample0] == 2200) /\
   Forall (fun d => 0 <= throughputYScale [sample0] 250 (rps d) <= chartInnerHeight 250) [sample0]).
Proof.
  assert (Hh : 50 <= 250) by lra.
  assert (Hd : Forall (fun d => 0 <= rps d) [sample0])
    by (repeat constructor; apply Qle_bool_iff; vm_compute; reflexivity).
  split; [exact Hh | split; [exact Hd |]].
  apply (throughputYScale_in_plot [sample0] 250 Hh Hd).
Defined.

Lemma latencyYScale_in_plot_witness :
  50 <= 250 /\ Forall (fun d => 0 <= p50 d /\ 0 <= p95 d /\ 0 <= p99 d) [sample0] /\
  (0 < latencyDomainMax [sample0] /\
   ([sample0] = [] -> latencyDomainMax [sample0] == 220) /\
   Forall (fun d => Forall (fun v => 0 <= latencyYScale [sample0] 250 v <= chartInnerHeight 250)
                           [p50 d; p95 d; p99 d]) [sample0]).
Proof.
  assert (Hh : 50 <= 250) by lra.
  assert (Hd : Forall (fun d => 0 <= p50 d /\ 0 <= p95 d /\ 0 <= p99 d) [sample0])
    by (repeat constructor; apply Qle_bool_iff; vm_compute; reflexivity).
  split; [exact Hh | split; [exact Hd |]].
  apply (latencyYScale_in_plot [sample0] 250 Hh Hd).
Defined.

Lemma errorYScale_in_plot_witness :
  50 < 250 /\ Forall (fun d => 0 <= errorRate d) [sample0] /\
  (1.5 <= errorDomainMax [sample0] /\
   ([sample0] = [] -> errorDomainMax [sample0] == 5) /\
   Forall (fun d => 0 <= errorYScale [sample0] 250 (errorRate d) <= chartInnerHeight 250) [sample0] /\
   chartInnerHeight 250 / 3 <= errorYScale [sample0] 250 ERROR_THRESHOLD < chartInnerHeight 250).
Proof.
  assert (Hh : 50 < 250) by lra.
  assert (Hd : Forall (fun d => 0 <= errorRate d) [sample0])
    by (repeat constructor; apply Qle_bool_iff; vm_compute; reflexivity).
  split; [exact Hh | split; [exact Hd |]].
  apply (errorYScale_in_plot [sample0] 250 Hh Hd).
Defined.

Lemma generateDataPoint_threshold_only_on_spikes_witness :
  valid_draws half_rng /\
  (let '(p, g, _) := generateDataPoint new_MetricsGenerator 0 half_rng in
   errorSpikeCooldown g == 15 \/ (0 < errorSpikeCooldown g < 5) \/
   (errorRate p <= 0.3 /\ Qltb ERROR_THRESHOLD (errorRate p) = false)).
Proof.
  split; [exact valid_draws_half |].
  apply (generateDataPoint_threshold_only_on_spikes new_MetricsGenerator 0 half_rng valid_draws_half).
Defined.

Lemma updateNodeMetrics_health_step_witness :
  valid_draws half_rng /\ Forall (fun n => int_in 0 100 (health n)) [node79] /\
  Forall2 (fun n n' => health n - 3 <= health n' <= health n + 3)
          [node79] (fst (updateNodeMetrics [node79] half_rng)).
Proof.
  assert (Hn : Forall (fun n => int_in 0 100 (health n)) [node79]).
  { repeat constructor. exists 79%Z. split; [reflexivity | unfold inject_Z; lra]. }
  split; [exact valid_draws_half | split; [exact Hn |]].
  apply (updateNodeMetrics_health_step [node79] half_rng valid_draws_half Hn).
Defined.

(** Draw 1, the decline roll of a degraded node, is 0.05. *)
Definition decline_rng : Rng :=
  {| draws := fun n => if Nat.eqb n 1 then 0.05 else 0.25; pos := 0 |}.

Lemma valid_draws_decline : valid_draws decline_rng.
Proof. intro n. cbn. destruct (Nat.eqb n 1); lra. Qed.

Lemma updateNode_degraded_decline_witness :
  valid_draws decline_rng /\ status node79 = degraded /\
  health node79 == inject_Z 79 /\ (0 <= 79 <= 100)%Z /\
  draws decline_rng (1 + pos decline_rng) < 0.1 /\
  (let '(node', _) := updateNode node79 decline_rng in
   health node' = Math_round (Math_max 0 (Math_min 100
                    (health node79 + (- Math_abs ((draws decline_rng (pos decline_rng) - 0.5) * 3)) * 1.5))) /\
   health node79 - 2 <= health node' <= health node79).
Proof.
  assert (Hh : health node79 == inject_Z 79) by reflexivity.
  assert (Hz : (0 <= 79 <= 100)%Z) by lia.
  assert (Hr : draws decline_rng (1 + pos decline_rng) < 0.1) by (vm_compute; reflexivity).
  split; [exact valid_draws_decline |].
  split; [reflexivity |].
  split; [exact Hh |]. split; [exact Hz |]. split; [exact Hr |].
  apply (updateNode_degraded_decline node79 decline_rng 79 valid_draws_decline eq_refl Hh Hz Hr).
Defined.

Lemma generateNodeMetrics_ranges_witness :
  valid_draws half_rng /\ Forall initial_node_ok (fst (generateNodeMetrics half_rng)).
Proof.
  split; [exact valid_draws_half |].
  apply (generateNodeMetrics_ranges half_rng valid_draws_half).
Defined.

Lemma nodesAfter_population_witness :
  valid_draws half_rng /\
  (let nodes := fst (nodesAfter 3 half_rng) in
   List.length nodes = 24%nat /\ NoDup (map nodeId nodes) /\
   map region nodes = map (fun i => nth (i mod 4) REGIONS ""%string) (seq 0 24) /\
   Forall (fun n => int_in 0 100 (health n) /\ 0 <= load n <= 100) nodes /\
   Forall status_matches_health nodes).
Proof.
  split; [exact valid_draws_half |].
  apply (nodesAfter_population 3 half_rng valid_draws_half).
Defined.

Lemma rangeThenLive_sorted_witness :
  Sorted Qlt [1000000; 1002000] /\ Forall (fun t => 1000000 <= t) [1000000; 1002000] /\
  Sorted Qlt (map timestamp (fst (fst (rangeThenLive new_MetricsGenerator 1000000 5
                                         [1000000; 1002000] half_rng)))).
Proof.
  assert (Hs : Sorted Qlt [1000000; 1002000]) by (repeat constructor; lra).
  assert (Hn : Forall (fun t => 1000000 <= t) [1000000; 1002000]) by (repeat constructor; lra).
  split; [exact Hs | split; [exact Hn |]].
  apply (rangeThenLive_sorted new_MetricsGenerator 1000000 5 [1000000; 1002000] half_rng Hs Hn).
Defined.

Lemma generateDataPoint_ranges_witness :
  valid_draws half_rng /\
  (let '(p, _, _) := generateDataPoint new_MetricsGenerator 0 half_rng in
   500 <= rps p <= 1660 /\ 37.5 <= p50 p <= 132.5 /\ 0 <= errorRate p <= 5).
Proof.
  split; [exact valid_draws_half |].
  apply (generateDataPoint_ranges new_MetricsGenerator 0 half_rng valid_draws_half).
Defined.

Lemma getHealthStatus_monotone_witness :
  50 <= 90 /\ (status_rank (getHealthStatus 90) <= status_rank (getHealthStatus 50))%nat.
Proof.
  assert (H : 50 <= 90) by lra.
  split; [exact H | apply (getHealthStatus_monotone 50 90 H)].
Defined.
